(** * nucypher-porter: request schemas

    A shallow embedding of [porter/schema.py] and
    [porter/fields/treasuremap.py].

    The schemas are marshmallow schemas; what [Schema.load] does with the
    declarations of [porter/schema.py] is written out in [Module Marshmallow],
    following marshmallow 3's [Schema._do_load].  The classes declared in the
    package itself are in [Module Porter]. *)

From Stdlib Require Import ZArith Lia.
From stdpp Require Import gmap strings list.

(** ** Values *)

(** A raw input value: what [json.loads] (or the command line parser) hands to
    [load]. *)
#[warnings="-register-all"]
Inductive json : Type :=
| JNull
| JBool (b : bool)
| JInt (z : Z)
| JStr (s : string)
| JList (l : list json)
| JDict (d : list (string * json)).

Definition bytes : Type := list Byte.byte.

(** An object of [nucypher_core] (a treasure map, a key, a retrieval kit), by
    its class and its serialised form. *)
Inductive object : Type :=
| Object (cls : string) (state : bytes).

(** A value of the loaded result.  [quantity] is loaded as an int, the two
    address lists as lists of str, keys and treasure maps as objects; with
    [unknown = INCLUDE] every other key of the input is copied as it came. *)
Inductive value : Type :=
| VInt (z : Z)
| VList (l : list string)
| VObj (o : object)
| VObjs (l : list object)
| VRaw (j : json).


(** ** Exceptions *)

(** The text of an exception.  An f-string that interpolates a Python [set]
    has no fixed rendering (the order of a set of str changes from run to
    run), so the set is kept as it is. *)
Inductive fragment : Type :=
| Lit (s : string)
| Repr (entries : gset string).

(** [ValidationError.messages]: a list of messages (raised for one field or by
    a schema validator), or the dict that [load] builds from all of them. *)
Inductive messages : Type :=
| MList (l : list string)
| MDict (d : gmap string (list string)).

(** The argument [InvalidInputData] is constructed with: a text, or the
    [ValidationError] that [handle_error] receives. *)
Inductive payload : Type :=
| Text (s : string)
| Errors (error : messages).

(** Modelled from the spec: the classes [InvalidInputData] and
    [InvalidArgumentCombo] are declared in [porter/fields/exceptions.py], which
    is not among the sources.  Per §7 an [InvalidArgumentCombo] reaches the
    caller of [load] as it is raised, so it is not a marshmallow
    [ValidationError] (which [load] would collect).  Whether an
    [InvalidInputData] raised inside a field is one is left open: see
    [outcome] below. *)
Inductive exn : Type :=
| ValidationError (m : messages)
| InvalidInputData (arg : payload)
| InvalidArgumentCombo (msg : list fragment)
| KeyError (key : string)
| TypeError (msg : string)
| Exception (cls msg : string).

Inductive result (A : Type) : Type :=
| Return (a : A)
| Raise (e : exn).
Arguments Return {A} a.
Arguments Raise {A} e.

#[global] Instance result_bind : MBind result := λ A B k r,
  match r with
  | Return a => k a
  | Raise e => Raise e
  end.

(** What calling a field's [deserialize] inside [Schema._call_and_store] comes
    to: a value, a [ValidationError] (which [_call_and_store] catches and
    records), or any exception that [except ValidationError] does not match
    (which leaves [load] at once).  A field class that raises
    [InvalidInputData] is [Invalid] or [Raised] according to whether that
    class derives from [ValidationError]. *)
Inductive outcome (A : Type) : Type :=
| Decoded (a : A)
| Invalid (msgs : list string)
| Raised (e : exn).
Arguments Decoded {A} a.
Arguments Invalid {A} msgs.
Arguments Raised {A} e.

Definition outcome_map {A B : Type} (f : A → B) (o : outcome A) : outcome B :=
  match o with
  | Decoded a => Decoded (f a)
  | Invalid msgs => Invalid msgs
  | Raised e => Raised e
  end.

(** ** marshmallow *)

Module Marshmallow.

Inductive unknown_mode : Type := RAISE | EXCLUDE | INCLUDE.

(** A bound field.  [_deserialize] stands for the field class's
    [_deserialize] followed by its [_validate]; it is given the raw value
    only (no field class used here looks at the rest of the input). *)
Record Field : Type := {
  required : bool;
  load_only : bool;
  dump_only : bool;
  _deserialize : json → outcome value
}.

(** A method decorated with [@validates_schema] (none here is declared with
    [pass_many] or [pass_original]). *)
Record Validator : Type := {
  skip_on_field_errors : bool;
  run : gmap string value → result unit
}.

Record Schema : Type := {
  declared_fields : list (string * Field);
  (** the decorated methods by attribute name, as the class body lists them *)
  schema_validators : list (string * Validator);
  unknown : unknown_mode;
  handle_error : messages → result unit
}.

Definition missing_msg : string := "Missing data for required field.".
Definition null_msg : string := "Field may not be null.".
Definition unknown_msg : string := "Unknown field.".
Definition SCHEMA : string := "_schema".

(** [Field.deserialize]: [None] is marshmallow's [missing]; no field here
    sets [allow_none] or a load default. *)
Definition deserialize (f : Field) (raw : option json) : outcome (option value) :=
  match raw with
  | None => if required f then Invalid [missing_msg] else Decoded None
  | Some JNull => Invalid [null_msg]
  | Some j => outcome_map Some (_deserialize f j)
  end.

Definition load_fields (s : Schema) : list (string * Field) :=
  filter (λ nf, dump_only nf.2 = false) (declared_fields s).

Definition field_names (s : Schema) : list string := (load_fields s).*1.

(** [ErrorStore.store_error] with [merge_errors]. *)
Definition merge_errors (e1 e2 : gmap string (list string)) : gmap string (list string) :=
  union_with (λ l1 l2, Some (l1 ++ l2)) e1 e2.

Definition store_error (msgs : list string) (field_name : string)
    (errors : gmap string (list string)) : gmap string (list string) :=
  merge_errors errors {[ field_name := msgs ]}.

(** The loop of [Schema._deserialize] over [load_fields]. *)
Fixpoint deserialize_fields (fs : list (string * Field)) (data : gmap string json)
    (ret_d : gmap string value) (errors : gmap string (list string))
    : result (gmap string value * gmap string (list string)) :=
  match fs with
  | [] => Return (ret_d, errors)
  | (field_name, field_obj) :: fs' =>
      match deserialize field_obj (data !! field_name) with
      | Decoded None => deserialize_fields fs' data ret_d errors
      | Decoded (Some v) => deserialize_fields fs' data (<[field_name := v]> ret_d) errors
      | Invalid msgs => deserialize_fields fs' data ret_d (store_error msgs field_name errors)
      | Raised e => Raise e
      end
  end.

(** The keys of the input that belong to no load field. *)
Definition unknown_part (s : Schema) (data : gmap string json) : gmap string json :=
  filter (λ kv, kv.1 ∉ field_names s) data.

Definition Schema_deserialize (s : Schema) (data : gmap string json)
    : result (gmap string value * gmap string (list string)) :=
  '(ret_d, errors) ← deserialize_fields (load_fields s) data ∅ ∅;
  match unknown s with
  | EXCLUDE => Return (ret_d, errors)
  | INCLUDE => Return ((VRaw <$> unknown_part s data) ∪ ret_d, errors)
  | RAISE =>
      Return (ret_d, merge_errors errors ((λ _, [unknown_msg]) <$> unknown_part s data))
  end.

(** [SchemaMeta.resolve_hooks] walks [dir(cls)], and [dir] returns the
    attribute names sorted: the hooks are kept by name in ascending order,
    whatever the order of the class body. *)
Fixpoint insert_by_name (h : string * Validator) (hs : list (string * Validator))
    : list (string * Validator) :=
  match hs with
  | [] => [h]
  | h' :: hs' => if String.leb h.1 h'.1 then h :: h' :: hs' else h' :: insert_by_name h hs'
  end.

Definition resolve_hooks (s : Schema) : list (string * Validator) :=
  foldr insert_by_name [] (schema_validators s).

(** [Schema._run_validator] for each hook in turn. *)
Fixpoint invoke_schema_validators (hooks : list (string * Validator))
    (data : gmap string value) (errors : gmap string (list string)) (field_errors : bool)
    : result (gmap string (list string)) :=
  match hooks with
  | [] => Return errors
  | (_, v) :: hooks' =>
      if field_errors && skip_on_field_errors v
      then invoke_schema_validators hooks' data errors field_errors
      else
        match run v data with
        | Return _ => invoke_schema_validators hooks' data errors field_errors
        | Raise (ValidationError (MList l)) =>
            invoke_schema_validators hooks' data (store_error l SCHEMA errors) field_errors
        | Raise (ValidationError (MDict d)) =>
            invoke_schema_validators hooks' data (merge_errors errors d) field_errors
        | Raise e => Raise e
        end
  end.

(** [Schema.load] for one object ([many = False]); the schemas here have no
    pre- or post-load hooks and no field validators. *)
Definition load (s : Schema) (data : gmap string json) : result (gmap string value) :=
  '(result, errors) ← Schema_deserialize s data;
  let field_errors := bool_decide (errors ≠ ∅) in
  errors' ← invoke_schema_validators (resolve_hooks s) result errors field_errors;
  if bool_decide (errors' ≠ ∅)
  then _ ← handle_error s (MDict errors'); Raise (ValidationError (MDict errors'))
  else Return result.

End Marshmallow.

(** ** click *)

(** What a [click.option(...)] declaration of [porter/schema.py] says. *)
Module Click.

Inductive param_type : Type := INT | STRING | EIP55_CHECKSUM_ADDRESS.

Record option_decl : Type := {
  flags : list string;
  help : string;
  type : param_type;
  multiple : bool;
  required : bool;
  default : option json
}.

End Click.

(** ** porter *)

Module Porter.
Import Marshmallow.

(** The field classes of [porter.specifications.fields] and [porter.fields]
    that the schema instantiates are not part of the sources at hand; they
    are taken as parameters, each with the type of what it loads. *)
Record field_classes : Type := {
  (** [base_fields.PositiveInteger] *)
  PositiveInteger : json → outcome Z;
  (** [base_fields.StringList(fields.UrsulaChecksumAddress())] *)
  StringList_UrsulaChecksumAddress : json → outcome (list string);
  (** [marshmallow_fields.List(marshmallow_fields.Nested(fields.UrsulaInfoSchema))] *)
  List_Nested_UrsulaInfoSchema : json → outcome value
}.

(** *** [class TreasureMap(Base64BytesRepresentation)] *)

Module TreasureMap.
Section TreasureMap.
(** The [TreasureMap] class of [nucypher_core]. *)
Context {TreasureMapClass : Type}.
(** [self.name] *)
Variable name : string.
(** [str(e)] *)
Variable str : exn → string.
(** [Base64BytesRepresentation._deserialize] *)
Variable super_deserialize : json → result bytes.
(** [TreasureMapClass.from_bytes] *)
Variable from_bytes : bytes → result TreasureMapClass.

(** [def _deserialize(self, value, attr, data, **kwargs)]; every [exn] is an
    instance of [Exception], which is what the [except] clause catches. *)
Definition _deserialize (value : json) : result TreasureMapClass :=
  match (treasure_map_bytes ← super_deserialize value; from_bytes treasure_map_bytes) with
  | Return treasure_map => Return treasure_map
  | Raise e =>
      Raise (InvalidInputData
               (Text ("Could not convert input for " +:+ name +:+
                      " to a TreasureMap: " +:+ str e)))
  end.
End TreasureMap.
End TreasureMap.

(** A declared field together with its [click=] argument. *)
Record declaration : Type := {
  field : Field;
  click : option Click.option_decl
}.

(** *** [class BaseSchema(Schema)] *)

(** [class Meta: unknown = INCLUDE] *)
Definition BaseSchema_unknown : unknown_mode := INCLUDE.

(** [def handle_error(self, error, data, many, **kwargs)] *)
Definition BaseSchema_handle_error (error : messages) : result unit :=
  Raise (InvalidInputData (Errors error)).

(** [@validates_schema] with its defaults. *)
Definition validates_schema (fn : gmap string value → result unit) : Validator :=
  {| skip_on_field_errors := true; run := fn |}.

(** [def option_ursula()] *)
Definition option_ursula : Click.option_decl :=
  {| Click.flags := ["--ursula"; "-u"];
     Click.help := "Ursula checksum address";
     Click.type := Click.EIP55_CHECKSUM_ADDRESS;
     Click.multiple := false; Click.required := true; Click.default := None |}.

(** [def option_bob_encrypting_key()] *)
Definition option_bob_encrypting_key : Click.option_decl :=
  {| Click.flags := ["--bob-encrypting-key"; "-bek"];
     Click.help := "Bob's encrypting key as a hexadecimal string";
     Click.type := Click.STRING;
     Click.multiple := false; Click.required := true; Click.default := None |}.

(** A schema class that derives from [BaseSchema] and decorates its
    validators with the plain [@validates_schema]. *)
Definition derives_BaseSchema (s : Schema) : Prop :=
  unknown s = BaseSchema_unknown ∧
  handle_error s = BaseSchema_handle_error ∧
  Forall (λ h : string * Validator, skip_on_field_errors h.2 = true) (schema_validators s).

(** *** [class AliceGetUrsulas(BaseSchema)] *)

Definition quantity (F : field_classes) : declaration := {|
  field := {| Marshmallow.required := true; load_only := true; dump_only := false;
              _deserialize := λ j, outcome_map VInt (PositiveInteger F j) |};
  click := Some {| Click.flags := ["--quantity"; "-n"];
                   Click.help := "Total number of Ursulas needed";
                   Click.type := Click.INT;
                   Click.multiple := false; Click.required := true;
                   Click.default := None |}
|}.

Definition exclude_ursulas (F : field_classes) : declaration := {|
  field := {| Marshmallow.required := false; load_only := true; dump_only := false;
              _deserialize := λ j, outcome_map VList (StringList_UrsulaChecksumAddress F j) |};
  click := Some {| Click.flags := ["--exclude-ursula"; "-e"];
                   Click.help := "Ursula checksum address to exclude from sample";
                   Click.type := Click.EIP55_CHECKSUM_ADDRESS;
                   Click.multiple := true; Click.required := false;
                   Click.default := Some (JList []) |}
|}.

Definition include_ursulas (F : field_classes) : declaration := {|
  field := {| Marshmallow.required := false; load_only := true; dump_only := false;
              _deserialize := λ j, outcome_map VList (StringList_UrsulaChecksumAddress F j) |};
  click := Some {| Click.flags := ["--include-ursula"; "-i"];
                   Click.help := "Ursula checksum address to include in sample";
                   Click.type := Click.EIP55_CHECKSUM_ADDRESS;
                   Click.multiple := true; Click.required := false;
                   Click.default := Some (JList []) |}
|}.

Definition ursulas (F : field_classes) : declaration := {|
  field := {| Marshmallow.required := false; load_only := false; dump_only := true;
              _deserialize := List_Nested_UrsulaInfoSchema F |};
  click := None
|}.

(** The class attributes that are fields, in the order of the class body. *)
Definition AliceGetUrsulas_declarations (F : field_classes) : list (string * declaration) :=
  [ ("quantity", quantity F);
    ("exclude_ursulas", exclude_ursulas F);
    ("include_ursulas", include_ursulas F);
    ("ursulas", ursulas F) ].

(** The loaded result holds a list of str under the two list fields and an
    int under [quantity] (lemma [deserialize_typed] below); on any other
    shape the operations of the rules are given as a [TypeError]. *)
Definition as_list (v : value) : result (list string) :=
  match v with
  | VList l => Return l
  | _ => Raise (TypeError "object is not a list of str")
  end.

Definition as_int (v : value) : result Z :=
  match v with
  | VInt z => Return z
  | _ => Raise (TypeError "object is not an int")
  end.

Definition quantity_msg : list fragment :=
  [Lit "Ursulas to include is greater than quantity requested"].

Definition exclusive_msg (common_ursulas : gset string) : list fragment :=
  [Lit "Ursulas to include and exclude are not mutually exclusive; common entries ";
   Repr common_ursulas].

(** [def check_valid_quantity_and_include_ursulas(self, data, **kwargs)] *)
Definition check_valid_quantity_and_include_ursulas (data : gmap string value)
    : result unit :=
  match data !! "include_ursulas" with
  | None => Return ()
  | Some v =>
      ursulas_to_include ← as_list v;
      if bool_decide (ursulas_to_include ≠ [])
      then
        match data !! "quantity" with
        | None => Raise (KeyError "quantity")
        | Some q =>
            quantity ← as_int q;
            if (quantity <? Z.of_nat (length ursulas_to_include))%Z
            then Raise (InvalidArgumentCombo quantity_msg)
            else Return ()
        end
      else Return ()
  end.

(** [data.get(key) or []] *)
Definition get_or_empty (data : gmap string value) (key : string) : result (list string) :=
  match data !! key with
  | None => Return []
  | Some v => as_list v
  end.

(** [def check_include_and_exclude_are_mutually_exclusive(self, data, **kwargs)] *)
Definition check_include_and_exclude_are_mutually_exclusive (data : gmap string value)
    : result unit :=
  ursulas_to_include ← get_or_empty data "include_ursulas";
  ursulas_to_exclude ← get_or_empty data "exclude_ursulas";
  let common_ursulas : gset string :=
    list_to_set ursulas_to_include ∩ list_to_set ursulas_to_exclude in
  if bool_decide (0 < size common_ursulas)
  then Raise (InvalidArgumentCombo (exclusive_msg common_ursulas))
  else Return ().

Definition AliceGetUrsulas (F : field_classes) : Schema := {|
  declared_fields := prod_map id field <$> AliceGetUrsulas_declarations F;
  schema_validators :=
    [ ("check_valid_quantity_and_include_ursulas",
       validates_schema check_valid_quantity_and_include_ursulas);
      ("check_include_and_exclude_are_mutually_exclusive",
       validates_schema check_include_and_exclude_are_mutually_exclusive) ];
  unknown := BaseSchema_unknown;
  handle_error := BaseSchema_handle_error
|}.

(** *** [class AliceRevoke(BaseSchema)] *)

Definition AliceRevoke : Schema := {|
  declared_fields := [];
  schema_validators := [];
  unknown := BaseSchema_unknown;
  handle_error := BaseSchema_handle_error
|}.

(** *** [class BobRetrieveCFrags(BaseSchema)] *)

(** What [BobRetrieveCFrags] takes from outside the sources at hand. *)
Record bob_classes : Type := {
  (** [Base64BytesRepresentation._deserialize] *)
  Base64BytesRepresentation_deserialize : json → result bytes;
  (** [nucypher_core.TreasureMap.from_bytes] *)
  TreasureMapClass_from_bytes : bytes → result object;
  (** [str(e)] *)
  str : exn → string;
  (** whether [InvalidInputData] derives from marshmallow's [ValidationError]
      (the class is declared in [porter/fields/exceptions.py]) *)
  InvalidInputData_isa_ValidationError : bool;
  (** [base_fields.StringList(RetrievalKit())] *)
  StringList_RetrievalKit : json → outcome (list object);
  (** [Key] *)
  Key : json → outcome object;
  (** [base_fields.JSON(expected_type=dict)] *)
  JSON_dict : json → outcome json;
  (** [marshmallow_fields.List(marshmallow_fields.Nested(RetrievalOutcomeSchema))] *)
  List_Nested_RetrievalOutcomeSchema : json → outcome value
}.

(** What [Schema._call_and_store] makes of a call of [TreasureMap._deserialize]:
    the [InvalidInputData] it raises is recorded if the class is a
    [ValidationError], and leaves [load] otherwise ([_deserialize] raises
    nothing else, so the last two cases do not arise). *)
Definition TreasureMap_outcome (B : bob_classes) (r : result object) : outcome value :=
  match r with
  | Return treasure_map => Decoded (VObj treasure_map)
  | Raise (InvalidInputData (Text msg)) =>
      if InvalidInputData_isa_ValidationError B
      then Invalid [msg]
      else Raised (InvalidInputData (Text msg))
  | Raise (ValidationError (MList msgs)) => Invalid msgs
  | Raise e => Raised e
  end.

Definition treasure_map (B : bob_classes) : declaration := {|
  field := {| Marshmallow.required := true; load_only := true; dump_only := false;
              Marshmallow._deserialize := λ j,
                TreasureMap_outcome B
                  (TreasureMap._deserialize "treasure_map" (str B)
                     (Base64BytesRepresentation_deserialize B)
                     (TreasureMapClass_from_bytes B) j) |};
  click := Some {| Click.flags := ["--treasure-map"; "-t"];
                   Click.help := "Unencrypted Treasure Map for retrieval";
                   Click.type := Click.STRING;
                   Click.multiple := false; Click.required := true;
                   Click.default := None |}
|}.

Definition retrieval_kits (B : bob_classes) : declaration := {|
  field := {| Marshmallow.required := true; load_only := true; dump_only := false;
              Marshmallow._deserialize := λ j, outcome_map VObjs (StringList_RetrievalKit B j) |};
  click := Some {| Click.flags := ["--retrieval-kits"; "-r"];
                   Click.help := "Retrieval kits for reencryption";
                   Click.type := Click.STRING;
                   Click.multiple := true; Click.required := true;
                   Click.default := Some (JList []) |}
|}.

Definition alice_verifying_key (B : bob_classes) : declaration := {|
  field := {| Marshmallow.required := true; load_only := true; dump_only := false;
              Marshmallow._deserialize := λ j, outcome_map VObj (Key B j) |};
  click := Some {| Click.flags := ["--alice-verifying-key"; "-avk"];
                   Click.help := "Alice's verifying key as a hexadecimal string";
                   Click.type := Click.STRING;
                   Click.multiple := false; Click.required := true;
                   Click.default := None |}
|}.

Definition bob_encrypting_key (B : bob_classes) : declaration := {|
  field := {| Marshmallow.required := true; load_only := true; dump_only := false;
              Marshmallow._deserialize := λ j, outcome_map VObj (Key B j) |};
  click := Some option_bob_encrypting_key
|}.

Definition bob_verifying_key (B : bob_classes) : declaration := {|
  field := {| Marshmallow.required := true; load_only := true; dump_only := false;
              Marshmallow._deserialize := λ j, outcome_map VObj (Key B j) |};
  click := Some {| Click.flags := ["--bob-verifying-key"; "-bvk"];
                   Click.help := "Bob's verifying key as a hexadecimal string";
                   Click.type := Click.STRING;
                   Click.multiple := false; Click.required := true;
                   Click.default := None |}
|}.

Definition context (B : bob_classes) : declaration := {|
  field := {| Marshmallow.required := false; load_only := true; dump_only := false;
              Marshmallow._deserialize := λ j, outcome_map VRaw (JSON_dict B j) |};
  click := Some {| Click.flags := ["--context"; "-ctx"];
                   Click.help := "Context data for retrieval conditions";
                   Click.type := Click.STRING;
                   Click.multiple := false; Click.required := false;
                   Click.default := None |}
|}.

Definition retrieval_results (B : bob_classes) : declaration := {|
  field := {| Marshmallow.required := false; load_only := false; dump_only := true;
              Marshmallow._deserialize := List_Nested_RetrievalOutcomeSchema B |};
  click := None
|}.

Definition BobRetrieveCFrags_declarations (B : bob_classes) : list (string * declaration) :=
  [ ("treasure_map", treasure_map B);
    ("retrieval_kits", retrieval_kits B);
    ("alice_verifying_key", alice_verifying_key B);
    ("bob_encrypting_key", bob_encrypting_key B);
    ("bob_verifying_key", bob_verifying_key B);
    ("context", context B);
    ("retrieval_results", retrieval_results B) ].

Definition BobRetrieveCFrags (B : bob_classes) : Schema := {|
  declared_fields := prod_map id field <$> BobRetrieveCFrags_declarations B;
  schema_validators := [];
  unknown := BaseSchema_unknown;
  handle_error := BaseSchema_handle_error
|}.

End Porter.

(** ** The command line surface *)

Module Cli.
Import Marshmallow Porter.

(** The parsed command line: the options given, in order, each with the flag
    it was given under and the value click converted it to. *)
Definition parsed := list (string * json).

(** The values given under one of the flags of an option, in order. *)
Definition option_values (o : Click.option_decl) (args : parsed) : list json :=
  (filter (λ a, a.1 ∈ Click.flags o) args).*2.

(** Modelled from the spec: the parser of the command line is not among the
    sources.  Per §4.3 and §6 a repeatable option gives the ordered sequence
    of its values and a single one its value (the one given last); an option
    that was not given has its declared default. *)
Definition option_value (o : Click.option_decl) (args : parsed) : option json :=
  match option_values o args with
  | [] => Click.default o
  | vs => if Click.multiple o then Some (JList vs) else last vs
  end.

(** Modelled from the spec: the adapter that hands the parsed options to
    [load] is not among the sources.  Per §4.3 and §6 the values are keyed by
    the name of the field the option is declared on, repeatable flags map to
    ordered sequences, and the mapping has the shape of the JSON payload;
    a required option that is missing is a usage error of the parser, and an
    option with neither a value nor a default contributes no key. *)
Fixpoint raw_input (decls : list (string * declaration)) (args : parsed)
    : result (gmap string json) :=
  match decls with
  | [] => Return ∅
  | (name, d) :: decls' =>
      rest ← raw_input decls' args;
      match click d with
      | None => Return rest
      | Some o =>
          match option_value o args with
          | Some v => Return (<[name := v]> rest)
          | None =>
              if Click.required o
              then Raise (Exception "UsageError" ("Missing option for " +:+ name))
              else Return rest
          end
      end
  end.

(** The JSON payload that carries the same three parameters. *)
Definition json_payload (quantity : json) (exclude include : list json) : gmap string json :=
  {[ "quantity" := quantity;
     "exclude_ursulas" := JList exclude;
     "include_ursulas" := JList include ]}.

End Cli.

(** ** Stand-ins for the field classes *)

Module Samples.
Import Marshmallow Porter.

(** Modelled from the spec: [base_fields.PositiveInteger] is not among the
    sources; an Integer field (§3) that takes the positive ints. *)
Definition PositiveInteger (j : json) : outcome Z :=
  match j with
  | JInt z => if (0 <? z)%Z then Decoded z else Invalid ["Must be a positive integer."]
  | _ => Invalid ["Not a valid integer."]
  end.

(** Modelled from the spec: [fields.UrsulaChecksumAddress] is not among the
    sources; the checksum of the address is not looked at. *)
Definition UrsulaChecksumAddress (j : json) : outcome string :=
  match j with
  | JStr s => Decoded s
  | _ => Invalid ["Not a valid string."]
  end.

(** Modelled from the spec: [base_fields.StringList] is not among the
    sources; per §4.1 it decodes a sequence of raw items by decoding each
    with the inner type, preserving order. *)
Fixpoint decode_each {A : Type} (inner : json → outcome A) (l : list json) : outcome (list A) :=
  match l with
  | [] => Decoded []
  | j :: l' =>
      match inner j with
      | Decoded a => outcome_map (cons a) (decode_each inner l')
      | Invalid msgs => Invalid msgs
      | Raised e => Raised e
      end
  end.

Definition StringList {A : Type} (inner : json → outcome A) (j : json) : outcome (list A) :=
  match j with
  | JList l => decode_each inner l
  | _ => Invalid ["Not a valid list."]
  end.

Definition classes : field_classes := {|
  Porter.PositiveInteger := PositiveInteger;
  StringList_UrsulaChecksumAddress := StringList UrsulaChecksumAddress;
  List_Nested_UrsulaInfoSchema := λ _, Invalid ["Not a valid list."]
|}.

(** Four checksum addresses. *)
Definition A : string := "0x5aAeb6053F3E94C9b9A09f33669435E7Ef1BeAed".
Definition B : string := "0xfB6916095ca1df60bB79Ce92cE3Ea74c37c5d359".
Definition C : string := "0xdbF03B407c01E7cD3CBea99509d93f8DDDC8C6FB".
Definition D : string := "0xD1220A0cf47c7B9Be7A2E6BA89F429762e7b9aDb".

Definition request (quantity : Z) (include : list string) (exclude : option (list string))
    : gmap string json :=
  let r : gmap string json :=
    {[ "quantity" := JInt quantity; "include_ursulas" := JList (JStr <$> include) ]} in
  match exclude with
  | None => r
  | Some l => <["exclude_ursulas" := JList (JStr <$> l)]> r
  end.

(** The byte of a number below 256. *)
Definition byte_of_N (n : N) : Byte.byte :=
  Ascii.byte_of_ascii (Ascii.ascii_of_N (n mod 256)).

(** The value of a digit of the base64 alphabet [A-Za-z0-9+/]. *)
Definition b64_digit (c : Ascii.ascii) : option N :=
  let n := Ascii.N_of_ascii c in
  if ((65 <=? n) && (n <=? 90))%N then Some (n - 65)%N
  else if ((97 <=? n) && (n <=? 122))%N then Some (n - 71)%N
  else if ((48 <=? n) && (n <=? 57))%N then Some (n + 4)%N
  else if (n =? 43)%N then Some 62%N
  else if (n =? 47)%N then Some 63%N
  else None.

(** Four characters give three bytes; the last group may end in one or two
    [=] and then gives two bytes or one. *)
Definition b64_group (a b c d : Ascii.ascii) (final : bool) : option bytes :=
  let is_pad (c : Ascii.ascii) := (Ascii.N_of_ascii c =? 61)%N in
  x ← b64_digit a;
  y ← b64_digit b;
  let b1 := byte_of_N (x * 4 + y / 16) in
  if is_pad d
  then
    if negb final then None
    else if is_pad c then Some [b1]
    else z ← b64_digit c; Some [b1; byte_of_N (y mod 16 * 16 + z / 4)]
  else
    z ← b64_digit c;
    w ← b64_digit d;
    Some [b1; byte_of_N (y mod 16 * 16 + z / 4); byte_of_N (z mod 4 * 64 + w)].

Fixpoint b64_groups (l : list Ascii.ascii) : option bytes :=
  match l with
  | [] => Some []
  | a :: b :: c :: d :: rest =>
      g ← b64_group a b c d (match rest with [] => true | _ => false end);
      bs ← b64_groups rest;
      Some (g ++ bs)
  | _ => None
  end.

(** Modelled from the spec: [Base64BytesRepresentation._deserialize] is not
    among the sources; per §4.1 and §8 it decodes base64, and malformed base64
    always fails. *)
Definition b64decode (j : json) : result bytes :=
  match j with
  | JStr s =>
      match b64_groups (String.list_ascii_of_string s) with
      | Some b => Return b
      | None =>
          Raise (Exception "binascii.Error"
                   (if (String.length s mod 4 =? 0)%nat
                    then "Non-base64 digit found" else "Incorrect padding"))
      end
  | _ => Raise (TypeError "argument should be a bytes-like object or ASCII string")
  end.

(** The value of a hexadecimal digit. *)
Definition hex_digit (c : Ascii.ascii) : option N :=
  let n := Ascii.N_of_ascii c in
  if ((48 <=? n) && (n <=? 57))%N then Some (n - 48)%N
  else if ((97 <=? n) && (n <=? 102))%N then Some (n - 87)%N
  else if ((65 <=? n) && (n <=? 70))%N then Some (n - 55)%N
  else None.

Fixpoint hex_pairs (l : list Ascii.ascii) : option bytes :=
  match l with
  | [] => Some []
  | a :: b :: rest =>
      x ← hex_digit a;
      y ← hex_digit b;
      bs ← hex_pairs rest;
      Some (byte_of_N (x * 16 + y) :: bs)
  | _ => None
  end.

(** [bytes.fromhex]: an odd number of digits or a character that is no
    hexadecimal digit fails (§4.1). *)
Definition fromhex (j : json) : result bytes :=
  match j with
  | JStr s =>
      match hex_pairs (String.list_ascii_of_string s) with
      | Some b => Return b
      | None => Raise (Exception "ValueError" "non-hexadecimal number found in fromhex() arg")
      end
  | _ => Raise (TypeError "fromhex() argument must be str")
  end.

(** The bytes that a str of hexadecimal digits stands for. *)
Definition unhex (s : string) : bytes :=
  default [] (hex_pairs (String.list_ascii_of_string s)).

(** A parser of [nucypher_core] (§6: [bytes -> DomainObject | raises]).  A
    public key is taken in its compressed form, 33 bytes of which the first
    is 02 or 03 (whether the point is on the curve is not looked at); the
    serialised form of the other classes is not described, and an object is
    made of any non-empty bytes. *)
Definition from_bytes (cls : string) (b : bytes) : result object :=
  let well_formed :=
    match b with
    | [] => false
    | first :: rest =>
        if String.eqb cls "PublicKey"
        then (Byte.eqb first Byte.x02 || Byte.eqb first Byte.x03) && (length rest =? 32)%nat
        else true
    end in
  if well_formed then Return (Object cls b)
  else Raise (Exception "ValueError" ("Failed to deserialize a " +:+ cls +:+ " object")).

(** [str(e)] for the exceptions that carry a text. *)
Definition exn_text (e : exn) : string :=
  match e with
  | Exception _ msg | TypeError msg | InvalidInputData (Text msg) => msg
  | KeyError key => key
  | _ => ""
  end.

(** Modelled from the spec: [Key] and [RetrievalKit] are not among the
    sources; per §4.1 a key is a hexadecimal string and a retrieval kit a
    base64 one, decoded to bytes and then to the object, and both fail with
    the field-decode error ([InvalidInputData], as in [TreasureMap]) when the
    bytes or the object cannot be decoded.  [load] records that error or lets
    it through according to how the class is declared. *)
Definition as_outcome {A : Type} (isa_ValidationError : bool) (what : string) (r : result A)
    : outcome A :=
  match r with
  | Return a => Decoded a
  | Raise e =>
      let msg := "Could not convert input to " +:+ what +:+ ": " +:+ exn_text e in
      if isa_ValidationError then Invalid [msg] else Raised (InvalidInputData (Text msg))
  end.

(** The classes that [BobRetrieveCFrags] takes from outside.  With
    [isa_ValidationError = false], [InvalidInputData] is what
    [porter/fields/exceptions.py] declares beside [InvalidArgumentCombo]: an
    exception class of the package that is no marshmallow [ValidationError];
    [true] is the other reading, kept for comparison. *)
Definition bob (isa_ValidationError : bool) : bob_classes := {|
  Base64BytesRepresentation_deserialize := b64decode;
  TreasureMapClass_from_bytes := from_bytes "TreasureMap";
  str := exn_text;
  InvalidInputData_isa_ValidationError := isa_ValidationError;
  StringList_RetrievalKit :=
    StringList (λ j, as_outcome isa_ValidationError "a RetrievalKit"
                       (b ← b64decode j; from_bytes "RetrievalKit" b));
  Key := λ j, as_outcome isa_ValidationError "an Umbral Key"
                (b ← fromhex j; from_bytes "PublicKey" b);
  JSON_dict := λ j, match j with JDict _ => Decoded j | _ => Invalid ["Invalid input."] end;
  List_Nested_RetrievalOutcomeSchema := λ _, Invalid ["Not a valid list."]
|}.

(** Three compressed points of secp256k1 (the generator, twice and three
    times the generator), in hexadecimal. *)
Definition key1 : string :=
  "0279be667ef9dcbbac55a06295ce870b07029bfcdb2dce28d959f2815b16f81798".
Definition key2 : string :=
  "02c6047f9441ed7d6d3045406e95c07cd85c778e4b8cef3ca7abac09b95c709ee5".
Definition key3 : string :=
  "02f9308a019258c31049344f85f89d5229b531c845836f99b08601f113bce036f9".

(** A retrieval request: the treasure map and one retrieval kit in base64,
    the three keys in hexadecimal. *)
Definition retrieval : gmap string json :=
  {[ "treasure_map" := JStr "dG1hcA==";
     "retrieval_kits" := JList [JStr "cmsx"];
     "alice_verifying_key" := JStr key1;
     "bob_encrypting_key" := JStr key2;
     "bob_verifying_key" := JStr key3 ]}.

(** What it loads to. *)
Definition retrieval_loaded : gmap string value :=
  {[ "treasure_map" := VObj (Object "TreasureMap" (String.list_byte_of_string "tmap"));
     "retrieval_kits" := VObjs [Object "RetrievalKit" (String.list_byte_of_string "rk1")];
     "alice_verifying_key" := VObj (Object "PublicKey" (unhex key1));
     "bob_encrypting_key" := VObj (Object "PublicKey" (unhex key2));
     "bob_verifying_key" := VObj (Object "PublicKey" (unhex key3)) ]}.

End Samples.

(** * Properties *)

Import Marshmallow Porter.

(** ** The error store *)

Lemma store_error_lookup msgs name (errors : gmap string (list string)) :
  errors !! name = None → store_error msgs name errors !! name = Some msgs.
Proof.
  intros H. unfold store_error, merge_errors.
  by rewrite lookup_union_with, H, lookup_singleton_eq.
Qed.

Lemma store_error_lookup_ne msgs name k (errors : gmap string (list string)) :
  name ≠ k → store_error msgs name errors !! k = errors !! k.
Proof.
  intros H. unfold store_error, merge_errors.
  rewrite lookup_union_with, lookup_singleton_ne by done.
  by destruct (errors !! k).
Qed.

Lemma store_error_nonempty msgs name (errors : gmap string (list string)) :
  store_error msgs name errors ≠ ∅.
Proof.
  intros H. apply (f_equal (λ m, m !! name)) in H.
  unfold store_error, merge_errors in H.
  rewrite lookup_union_with, lookup_singleton_eq, lookup_empty in H.
  by destruct (errors !! name).
Qed.

(** ** Names of fields *)

Lemma NoDup_fst_functional {A B : Type} (l : list (A * B)) (x : A) (y1 y2 : B) :
  NoDup l.*1 → (x, y1) ∈ l → (x, y2) ∈ l → y1 = y2.
Proof.
  induction l as [|[a b] l IH]; simpl; intros Hnd H1 H2; [by apply elem_of_nil in H1|].
  apply NoDup_cons in Hnd as [Ha Hnd].
  assert (Hno : ∀ y, (a, y) ∉ l).
  { intros y Hin. apply Ha. apply list_elem_of_fmap. by exists (a, y). }
  apply elem_of_cons in H1 as [H1|H1]; apply elem_of_cons in H2 as [H2|H2];
    simplify_eq; try done; try (by apply Hno in H1); try (by apply Hno in H2).
  by apply IH.
Qed.

(** ** The loop over the fields *)

(** A field error, once stored, stays. *)
Lemma deserialize_fields_errors_mono fs raw ret_d errors ret_d' errors' :
  deserialize_fields fs raw ret_d errors = Return (ret_d', errors') →
  errors ≠ ∅ → errors' ≠ ∅.
Proof.
  revert ret_d errors.
  induction fs as [|[name f] fs IH]; intros ret_d errors; simpl.
  - by intros [= _ <-].
  - destruct (deserialize f (raw !! name)) as [[v|]|msgs|e]; try done; eauto.
    intros H _. eapply IH; [exact H|]. apply store_error_nonempty.
Qed.

(** Which errors the loop leaves in the store. *)
Lemma deserialize_fields_errors fs raw ret_d errors :
  NoDup fs.*1 →
  (∀ name, name ∈ fs.*1 → errors !! name = None) →
  (∀ name f e, (name, f) ∈ fs → deserialize f (raw !! name) ≠ Raised e) →
  ∃ ret_d' errors',
    deserialize_fields fs raw ret_d errors = Return (ret_d', errors') ∧
    ∀ name msgs,
      errors' !! name = Some msgs ↔
      errors !! name = Some msgs ∨
      ∃ f, (name, f) ∈ fs ∧ deserialize f (raw !! name) = Invalid msgs.
Proof.
  revert ret_d errors.
  induction fs as [|[n f] fs IH]; intros ret_d errors Hnd Hfresh Hok; simpl.
  - eexists _, _. split; [done|]. intros name msgs. split; [auto|].
    intros [H|(f & Hf & _)]; [done|]. by apply elem_of_nil in Hf.
  - simpl in Hnd. apply NoDup_cons in Hnd as [Hn Hnd].
    assert (Hok' : ∀ name f0 e, (name, f0) ∈ fs → deserialize f0 (raw !! name) ≠ Raised e).
    { intros name f0 e Hin. apply Hok. by right. }
    assert (Hfresh' : ∀ name, name ∈ fs.*1 → errors !! name = None).
    { intros name Hin. apply Hfresh. simpl. by right. }
    assert (Hnf : ∀ f0, (n, f0) ∉ fs).
    { intros f0 Hin. apply Hn. apply list_elem_of_fmap. by exists (n, f0). }
    destruct (deserialize f (raw !! n)) as [[v|]|msgs0|e] eqn:Hd.
    + destruct (IH (<[n:=v]> ret_d) errors Hnd Hfresh' Hok') as (r' & e' & -> & Hspec).
      eexists _, _. split; [done|]. intros name msgs. rewrite Hspec.
      split; (intros [H|(f0 & Hin & Hf0)]; [by left|right]).
      * exists f0. split; [by right|done].
      * apply elem_of_cons in Hin as [[= -> ->]|Hin]; [congruence|eauto].
    + destruct (IH ret_d errors Hnd Hfresh' Hok') as (r' & e' & -> & Hspec).
      eexists _, _. split; [done|]. intros name msgs. rewrite Hspec.
      split; (intros [H|(f0 & Hin & Hf0)]; [by left|right]).
      * exists f0. split; [by right|done].
      * apply elem_of_cons in Hin as [[= -> ->]|Hin]; [congruence|eauto].
    + destruct (IH ret_d (store_error msgs0 n errors) Hnd) as (r' & e' & -> & Hspec).
      { intros name Hin. rewrite store_error_lookup_ne; [by apply Hfresh'|].
        intros ->. done. }
      { done. }
      eexists _, _. split; [done|]. intros name msgs. rewrite Hspec.
      destruct (decide (n = name)) as [->|Hne].
      * rewrite store_error_lookup by (apply Hfresh; simpl; by left).
        rewrite (Hfresh name) by (simpl; by left).
        split.
        -- intros [[= <-]|(f0 & Hin & _)]; [|by apply Hnf in Hin].
           right. exists f. split; [by left|done].
        -- intros [?|(f0 & Hin & Hf0)]; [done|].
           apply elem_of_cons in Hin as [[= ->]|Hin]; [|by apply Hnf in Hin].
           left. congruence.
      * rewrite store_error_lookup_ne by done.
        split; (intros [H|(f0 & Hin & Hf0)]; [by left|right]).
        -- exists f0. split; [by right|done].
        -- apply elem_of_cons in Hin as [[= -> ->]|Hin]; [done|eauto].
    + by destruct (Hok n f e); [left|].
Qed.

(** ** Hooks *)

Lemma insert_by_name_Permutation h hs : insert_by_name h hs ≡ₚ h :: hs.
Proof.
  induction hs as [|h' hs IH]; simpl; [done|].
  destruct (String.leb h.1 h'.1); [done|].
  rewrite IH. apply Permutation_swap.
Qed.

Lemma resolve_hooks_Permutation s : resolve_hooks s ≡ₚ schema_validators s.
Proof.
  unfold resolve_hooks. induction (schema_validators s) as [|h hs IH]; simpl; [done|].
  by rewrite insert_by_name_Permutation, IH.
Qed.

(** With a field error in the store, the validators that keep the decorator's
    default are passed over. *)
Lemma invoke_schema_validators_skipped hooks data errors :
  Forall (λ h : string * Validator, skip_on_field_errors h.2 = true) hooks →
  invoke_schema_validators hooks data errors true = Return errors.
Proof.
  induction 1 as [|[n v] hooks Hv _ IH]; simpl; [done|].
  simpl in Hv. by rewrite Hv.
Qed.

(** ** Unknown keys *)

Lemma unknown_part_lookup_field s (raw : gmap string json) name :
  name ∈ field_names s → unknown_part s raw !! name = None.
Proof.
  intros Hin. unfold unknown_part. apply map_lookup_filter_None. right.
  intros x _ Hx. by apply Hx.
Qed.

Lemma unknown_part_lookup_other s (raw : gmap string json) name :
  name ∉ field_names s → unknown_part s raw !! name = raw !! name.
Proof.
  intros Hin. unfold unknown_part.
  destruct (raw !! name) as [j|] eqn:Hj.
  - by apply map_lookup_filter_Some.
  - apply map_lookup_filter_None. by left.
Qed.

(** ** The ways out of [load] *)

Lemma merge_errors_nonempty (e1 e2 : gmap string (list string)) :
  e1 ≠ ∅ → merge_errors e1 e2 ≠ ∅.
Proof.
  intros Hne Heq. apply Hne. apply map_eq. intros k. rewrite lookup_empty.
  apply (f_equal (λ m, m !! k)) in Heq.
  unfold merge_errors in Heq. rewrite lookup_union_with, lookup_empty in Heq.
  by destruct (e1 !! k), (e2 !! k).
Qed.

(** The validators only add to the store. *)
Lemma invoke_schema_validators_mono hooks data errors field_errors errors' :
  invoke_schema_validators hooks data errors field_errors = Return errors' →
  errors ≠ ∅ → errors' ≠ ∅.
Proof.
  revert errors. induction hooks as [|[n v] hooks IH]; intros errors; simpl.
  - by intros [= <-].
  - destruct (field_errors && skip_on_field_errors v); [by apply IH|].
    destruct (run v data) as [[]|[[l|d]| | | | |]]; try done; try (by apply IH).
    + intros H Hne. apply (IH _ H). by apply merge_errors_nonempty.
    + intros H Hne. apply (IH _ H). by apply merge_errors_nonempty.
Qed.

(** [load] returns only what [Schema._deserialize] built, and only when the
    store stayed empty. *)
Lemma load_Return_inv (s : Schema) (raw : gmap string json) (data : gmap string value) :
  load s raw = Return data → Schema_deserialize s raw = Return (data, ∅).
Proof.
  unfold load.
  destruct (Schema_deserialize s raw) as [[result errors]|e]; simpl; [|done].
  destruct (invoke_schema_validators _ result errors _) as [errors'|e] eqn:Hv; simpl; [|done].
  destruct (bool_decide (errors' ≠ ∅)) eqn:Hne.
  - by destruct (handle_error s (MDict errors')).
  - intros [= <-]. destruct (decide (errors = ∅)) as [->|He]; [done|].
    apply bool_decide_eq_false in Hne. destruct Hne.
    by eapply invoke_schema_validators_mono.
Qed.

(** ** Every per-field error is collected *)

Lemma load_field_errors s raw result errors :
  derives_BaseSchema s →
  Schema_deserialize s raw = Return (result, errors) →
  errors ≠ ∅ →
  load s raw = Raise (InvalidInputData (Errors (MDict errors))).
Proof.
  intros (_ & Hh & Hv) Hd Hne. unfold load. rewrite Hd. simpl.
  rewrite (bool_decide_eq_true_2 _ Hne).
  rewrite invoke_schema_validators_skipped.
  - simpl. rewrite (bool_decide_eq_true_2 _ Hne). by rewrite Hh.
  - by rewrite resolve_hooks_Permutation.
Qed.

(** An exception that a field lets through ends [load] where it is raised:
    the errors stored before it are dropped and the fields after it are not
    looked at. *)
Lemma load_field_exception_propagates (s : Schema) (raw : gmap string json)
    (before after : list (string * Field)) (name : string) (f : Field) (e : exn) :
  load_fields s = before ++ (name, f) :: after →
  (∀ n' f' e', (n', f') ∈ before → deserialize f' (raw !! n') ≠ Raised e') →
  deserialize f (raw !! name) = Raised e →
  load s raw = Raise e.
Proof.
  intros Hfs Hbefore Hf. unfold load, Schema_deserialize. rewrite Hfs.
  assert (H : ∀ ret_d errors,
    deserialize_fields (before ++ (name, f) :: after) raw ret_d errors = Raise e);
    [|by rewrite H].
  clear Hfs. induction before as [|[n' f'] before IH]; intros ret_d errors; simpl.
  - by rewrite Hf.
  - assert (IH' := IH (λ n0 f0 e0 Hin, Hbefore n0 f0 e0 (list_elem_of_further _ _ _ Hin))).
    destruct (deserialize f' (raw !! n')) as [[v|]|msgs|e'] eqn:Hd; auto.
    by destruct (Hbefore n' f' e' (list_elem_of_here _ _)).
Qed.

(** The fields are gone over in order: either none lets an exception
    through, or there is a first one that does. *)
Lemma first_field_that_raises (fs : list (string * Field)) (raw : gmap string json) :
  (∀ name f e, (name, f) ∈ fs → deserialize f (raw !! name) ≠ Raised e) ∨
  (∃ before name f after e,
     fs = before ++ (name, f) :: after ∧
     (∀ n' f' e', (n', f') ∈ before → deserialize f' (raw !! n') ≠ Raised e') ∧
     deserialize f (raw !! name) = Raised e).
Proof.
  induction fs as [|[n f] fs IH].
  - left. intros name f e Hin. by apply elem_of_nil in Hin.
  - destruct (deserialize f (raw !! n)) as [o|msgs|e] eqn:Hd.
    3: { right. exists [], n, f, fs, e. split; [done|]. split; [|done].
         intros n' f' e' Hin. by apply elem_of_nil in Hin. }
    all: destruct IH as [IH|(before & name & f0 & after & e & -> & Hb & Hf)].
    all: try (left; intros name f0 e Hin;
              apply elem_of_cons in Hin as [[= -> ->]|Hin]; [by rewrite Hd|by apply IH]).
    all: right; exists ((n, f) :: before), name, f0, after, e;
         (split; [done|]); (split; [|done]);
         intros n' f' e' Hin;
         apply elem_of_cons in Hin as [[= -> ->]|Hin]; [by rewrite Hd|by apply Hb].
Qed.


(** ** What the loop leaves in the result *)

Lemma deserialize_fields_lookup fs raw ret_d errors ret_d' errors' :
  NoDup fs.*1 →
  deserialize_fields fs raw ret_d errors = Return (ret_d', errors') →
  (∀ name f, (name, f) ∈ fs →
     ret_d' !! name =
       match deserialize f (raw !! name) with
       | Decoded (Some v) => Some v
       | _ => ret_d !! name
       end) ∧
  (∀ name, name ∉ fs.*1 → ret_d' !! name = ret_d !! name).
Proof.
  revert ret_d errors.
  induction fs as [|[n f] fs IH]; intros ret_d errors Hnd; simpl.
  - intros [= <- _]. split; [|done]. intros name f Hin. by apply elem_of_nil in Hin.
  - apply NoDup_cons in Hnd as [Hn Hnd].
    assert (Hnf : ∀ f0, (n, f0) ∉ fs).
    { intros f0 Hin. apply Hn. apply list_elem_of_fmap. by exists (n, f0). }
    destruct (deserialize f (raw !! n)) as [[v|]|msgs0|e] eqn:Hd; [| | |done];
      intros H; destruct (IH _ _ Hnd H) as [H1 H2]; split.
    + intros name f0 Hin. apply elem_of_cons in Hin as [[= -> ->]|Hin].
      * rewrite H2 by done. by rewrite Hd, lookup_insert_eq.
      * rewrite (H1 _ _ Hin).
        destruct (deserialize f0 (raw !! name)) as [[?|]| |]; try done;
          (rewrite lookup_insert_ne; [done|]; intros ->; by apply Hnf in Hin).
    + intros name Hin. apply not_elem_of_cons in Hin as [Hne Hin].
      rewrite H2 by done. by rewrite lookup_insert_ne.
    + intros name f0 Hin. apply elem_of_cons in Hin as [[= -> ->]|Hin].
      * rewrite H2 by done. by rewrite Hd.
      * by rewrite (H1 _ _ Hin).
    + intros name Hin. apply not_elem_of_cons in Hin as [Hne Hin]. by rewrite H2.
    + intros name f0 Hin. apply elem_of_cons in Hin as [[= -> ->]|Hin].
      * rewrite H2 by done. by rewrite Hd.
      * by rewrite (H1 _ _ Hin).
    + intros name Hin. apply not_elem_of_cons in Hin as [Hne Hin]. by rewrite H2.
Qed.

(** When the loop comes to its end, no field let an exception through, and a
    field that was invalid left the store non-empty. *)
Lemma deserialize_fields_Return fs raw ret_d errors ret_d' errors' :
  deserialize_fields fs raw ret_d errors = Return (ret_d', errors') →
  ∀ name f, (name, f) ∈ fs →
    (∀ e, deserialize f (raw !! name) ≠ Raised e) ∧
    (∀ msgs, deserialize f (raw !! name) = Invalid msgs → errors' ≠ ∅).
Proof.
  revert ret_d errors.
  induction fs as [|[n f] fs IH]; intros ret_d errors; simpl.
  - intros _ name f Hin. by apply elem_of_nil in Hin.
  - intros H name f0 Hin. apply elem_of_cons in Hin as [[= -> ->]|Hin].
    + destruct (deserialize f (raw !! n)) as [[v|]|msgs0|e]; [| | |done];
        (split; [done|]); intros msgs [=]. subst.
      eapply deserialize_fields_errors_mono; [exact H|apply store_error_nonempty].
    + destruct (deserialize f (raw !! n)) as [[v|]|msgs0|e]; [| | |done]; eauto.
Qed.

(** When the loop ends with an empty store, every field decoded. *)
Lemma deserialize_fields_passed fs raw ret_d ret_d' :
  deserialize_fields fs raw ret_d ∅ = Return (ret_d', ∅) →
  ∀ name f, (name, f) ∈ fs →
    (raw !! name = None ∧ required f = false) ∨
    (∃ j v, raw !! name = Some j ∧ j ≠ JNull ∧ _deserialize f j = Decoded v ∧
            deserialize f (raw !! name) = Decoded (Some v)).
Proof.
  intros H name f Hin.
  destruct (deserialize_fields_Return _ _ _ _ _ _ H name f Hin) as [Hr Hi].
  unfold deserialize in *.
  destruct (raw !! name) as [j|].
  - right. destruct j;
      try (by destruct (Hi [null_msg]));
      (destruct (_deserialize f _) as [v|msgs|e] eqn:Hd; simpl in *;
       [eexists _, v; by repeat split | by destruct (Hi msgs) | by destruct (Hr e)]).
  - left. destruct (required f); [by destruct (Hi [missing_msg])|done].
Qed.

(** With [unknown = INCLUDE], the result of a pass without errors, key by key. *)
Lemma Schema_deserialize_passed (s : Schema) (raw : gmap string json)
    (data : gmap string value) :
  unknown s = INCLUDE → NoDup (field_names s) →
  Schema_deserialize s raw = Return (data, ∅) →
  (∀ name f, (name, f) ∈ load_fields s →
     (raw !! name = None ∧ required f = false ∧ data !! name = None) ∨
     (∃ j v, raw !! name = Some j ∧ j ≠ JNull ∧ _deserialize f j = Decoded v ∧
             data !! name = Some v)) ∧
  (∀ k, k ∉ field_names s → data !! k = VRaw <$> raw !! k).
Proof.
  intros Hu Hnd. unfold Schema_deserialize.
  destruct (deserialize_fields _ raw ∅ ∅) as [[ret_d errors]|e] eqn:Hd; simpl; [|done].
  rewrite Hu. intros [= <- ->].
  destruct (deserialize_fields_lookup _ _ _ _ _ _ Hnd Hd) as [Hl Ho].
  split.
  - intros name f Hin.
    assert (Hn : name ∈ field_names s) by (apply list_elem_of_fmap; by exists (name, f)).
    rewrite lookup_union_r by (by rewrite lookup_fmap, unknown_part_lookup_field).
    rewrite (Hl _ _ Hin), lookup_empty.
    destruct (deserialize_fields_passed _ _ _ _ Hd name f Hin)
      as [[Hraw Hreq]|(j & v & Hraw & Hj & Hf & Hdes)].
    + left. rewrite Hraw. simpl. by rewrite Hreq.
    + right. exists j, v. by rewrite Hdes.
  - intros k Hk.
    rewrite lookup_union, lookup_fmap, unknown_part_lookup_other by done.
    rewrite (Ho k Hk), lookup_empty. by destruct (raw !! k).
Qed.

(** ** [AliceGetUrsulas] *)

Section AliceGetUrsulas.
Variable F : field_classes.

Lemma Alice_load_fields :
  load_fields (AliceGetUrsulas F) =
    [ ("quantity", field (quantity F));
      ("exclude_ursulas", field (exclude_ursulas F));
      ("include_ursulas", field (include_ursulas F)) ].
Proof. reflexivity. Qed.

Lemma Alice_field_names :
  field_names (AliceGetUrsulas F) = ["quantity"; "exclude_ursulas"; "include_ursulas"].
Proof. reflexivity. Qed.

(** The order in which [load] runs the two rules: by method name. *)
Lemma Alice_resolve_hooks :
  resolve_hooks (AliceGetUrsulas F) =
    [ ("check_include_and_exclude_are_mutually_exclusive",
       validates_schema check_include_and_exclude_are_mutually_exclusive);
      ("check_valid_quantity_and_include_ursulas",
       validates_schema check_valid_quantity_and_include_ursulas) ].
Proof. reflexivity. Qed.

Lemma Alice_derives_BaseSchema : derives_BaseSchema (AliceGetUrsulas F).
Proof. split; [done|]. split; [done|]. by repeat constructor. Qed.

Lemma Alice_NoDup : NoDup (field_names (AliceGetUrsulas F)).
Proof. rewrite Alice_field_names. by apply (bool_decide_unpack _). Qed.

(** *** What the fields load *)

Lemma deserialize_quantity_Decoded o v :
  deserialize (field (quantity F)) o = Decoded v → ∃ q, v = Some (VInt q).
Proof.
  destruct o as [j|]; simpl; [|done].
  destruct j; simpl; try done;
    (destruct (PositiveInteger F _); simpl; [|done..]; intros [= <-]; eauto).
Qed.

Lemma deserialize_list_Decoded (d : declaration) o v :
  d = exclude_ursulas F ∨ d = include_ursulas F →
  deserialize (field d) o = Decoded v →
  (o = None ∧ v = None) ∨ ∃ l, v = Some (VList l).
Proof.
  intros [-> | ->]; (destruct o as [j|]; simpl; [|intros [= <-]; by left]);
    (destruct j; simpl; try done;
     (destruct (StringList_UrsulaChecksumAddress F _); simpl; [|done..];
      intros [= <-]; eauto)).
Qed.

Lemma Alice_deserialize_inv raw data errors :
  Schema_deserialize (AliceGetUrsulas F) raw = Return (data, errors) →
  ∃ ret_d,
    deserialize_fields (load_fields (AliceGetUrsulas F)) raw ∅ ∅ = Return (ret_d, errors) ∧
    data = (VRaw <$> unknown_part (AliceGetUrsulas F) raw) ∪ ret_d.
Proof.
  unfold Schema_deserialize.
  destruct (deserialize_fields _ _ _ _) as [[ret_d errors0]|e]; simpl; [|done].
  intros [= <- <-]. eauto.
Qed.

(** The value the result holds under the name of a field to load. *)
Lemma Alice_lookup_field raw data errors name f :
  Schema_deserialize (AliceGetUrsulas F) raw = Return (data, errors) →
  (name, f) ∈ load_fields (AliceGetUrsulas F) →
  data !! name =
    match deserialize f (raw !! name) with
    | Decoded (Some v) => Some v
    | _ => None
    end.
Proof.
  intros (ret_d & Hd & ->)%Alice_deserialize_inv Hin.
  rewrite lookup_union_r.
  - destruct (deserialize_fields_lookup _ _ _ _ _ _ Alice_NoDup Hd) as [H _].
    rewrite (H _ _ Hin), lookup_empty.
    by destruct (deserialize f (raw !! name)) as [[?|]| |].
  - rewrite lookup_fmap, unknown_part_lookup_field; [done|].
    apply list_elem_of_fmap. by exists (name, f).
Qed.

Lemma Alice_in_quantity : ("quantity", field (quantity F)) ∈ load_fields (AliceGetUrsulas F).
Proof. rewrite Alice_load_fields. set_solver. Qed.

Lemma Alice_in_exclude :
  ("exclude_ursulas", field (exclude_ursulas F)) ∈ load_fields (AliceGetUrsulas F).
Proof. rewrite Alice_load_fields. set_solver. Qed.

Lemma Alice_in_include :
  ("include_ursulas", field (include_ursulas F)) ∈ load_fields (AliceGetUrsulas F).
Proof. rewrite Alice_load_fields. set_solver. Qed.

(** The loaded result is typed as the fields say. *)
Lemma deserialize_typed raw data errors :
  Schema_deserialize (AliceGetUrsulas F) raw = Return (data, errors) →
  (data !! "quantity" = None ∨ ∃ q, data !! "quantity" = Some (VInt q)) ∧
  (data !! "exclude_ursulas" = None ∨ ∃ l, data !! "exclude_ursulas" = Some (VList l)) ∧
  (data !! "include_ursulas" = None ∨ ∃ l, data !! "include_ursulas" = Some (VList l)).
Proof.
  intros H.
  rewrite (Alice_lookup_field _ _ _ _ _ H Alice_in_quantity).
  rewrite (Alice_lookup_field _ _ _ _ _ H Alice_in_exclude).
  rewrite (Alice_lookup_field _ _ _ _ _ H Alice_in_include).
  split; [|split].
  - destruct (deserialize _ (raw !! "quantity")) as [[v|]| |] eqn:Hq; auto.
    apply deserialize_quantity_Decoded in Hq as [q [= ->]]. eauto.
  - destruct (deserialize _ (raw !! "exclude_ursulas")) as [[v|]| |] eqn:Hq; auto.
    apply (deserialize_list_Decoded (exclude_ursulas F)) in Hq as [[_ [=]]|[l [= ->]]];
      eauto.
  - destruct (deserialize _ (raw !! "include_ursulas")) as [[v|]| |] eqn:Hq; auto.
    apply (deserialize_list_Decoded (include_ursulas F)) in Hq as [[_ [=]]|[l [= ->]]];
      eauto.
Qed.

(** [quantity] is required: when no field failed it is in the result. *)
Lemma deserialize_quantity_present raw data :
  Schema_deserialize (AliceGetUrsulas F) raw = Return (data, ∅) →
  ∃ q, data !! "quantity" = Some (VInt q).
Proof.
  intros H. rewrite (Alice_lookup_field _ _ _ _ _ H Alice_in_quantity).
  destruct (Alice_deserialize_inv _ _ _ H) as (ret_d & Hd & _).
  destruct (deserialize_fields_Return _ _ _ _ _ _ Hd _ _ Alice_in_quantity) as [Hr Hi].
  destruct (deserialize _ (raw !! "quantity")) as [[v|]|msgs|e] eqn:Hq.
  - apply deserialize_quantity_Decoded in Hq as [q [= ->]]. eauto.
  - apply deserialize_quantity_Decoded in Hq as [q [=]].
  - by destruct (Hi msgs).
  - by destruct (Hr e).
Qed.

(** An optional field that is not in the input is not in the result. *)
Lemma deserialize_include_absent raw data errors :
  Schema_deserialize (AliceGetUrsulas F) raw = Return (data, errors) →
  raw !! "include_ursulas" = None →
  data !! "include_ursulas" = None.
Proof.
  intros H Hraw. rewrite (Alice_lookup_field _ _ _ _ _ H Alice_in_include).
  by rewrite Hraw.
Qed.

Lemma get_or_empty_typed raw data errors key :
  Schema_deserialize (AliceGetUrsulas F) raw = Return (data, errors) →
  key = "exclude_ursulas" ∨ key = "include_ursulas" →
  ∃ l, get_or_empty data key = Return l.
Proof.
  intros (_ & He & Hi)%deserialize_typed [-> | ->]; unfold get_or_empty.
  - destruct He as [-> | [l ->]]; simpl; eauto.
  - destruct Hi as [-> | [l ->]]; simpl; eauto.
Qed.

(** *** The two rules *)

Lemma common_ursulas_nonempty (incl excl : list string) :
  0 < size (list_to_set incl ∩ list_to_set excl : gset string) ↔
  ∃ a, a ∈ incl ∧ a ∈ excl.
Proof.
  split.
  - intros Hs.
    destruct (set_choose_L (list_to_set incl ∩ list_to_set excl : gset string)) as [a Ha].
    { intros Heq. rewrite Heq, size_empty in Hs. lia. }
    exists a. set_solver.
  - intros (a & Hi & He).
    assert (Ha : a ∈ (list_to_set incl ∩ list_to_set excl : gset string)) by set_solver.
    destruct (decide (size (list_to_set incl ∩ list_to_set excl : gset string) = 0))
      as [Hz|Hz]; [|lia].
    apply size_empty_inv in Hz. by apply Hz, elem_of_empty in Ha.
Qed.

Lemma check_valid_quantity_loaded data q incl :
  data !! "quantity" = Some (VInt q) →
  data !! "include_ursulas" = Some (VList incl) →
  incl ≠ [] →
  check_valid_quantity_and_include_ursulas data =
    if (q <? Z.of_nat (length incl))%Z
    then Raise (InvalidArgumentCombo quantity_msg)
    else Return ().
Proof.
  intros Hq Hi Hne. unfold check_valid_quantity_and_include_ursulas.
  rewrite Hi. simpl. rewrite (bool_decide_eq_true_2 _ Hne), Hq. done.
Qed.

Lemma check_valid_quantity_empty data :
  data !! "include_ursulas" = None ∨ data !! "include_ursulas" = Some (VList []) →
  check_valid_quantity_and_include_ursulas data = Return ().
Proof.
  unfold check_valid_quantity_and_include_ursulas. by intros [-> | ->].
Qed.

Lemma check_include_and_exclude_loaded data incl excl :
  get_or_empty data "include_ursulas" = Return incl →
  get_or_empty data "exclude_ursulas" = Return excl →
  check_include_and_exclude_are_mutually_exclusive data =
    if bool_decide (0 < size (list_to_set incl ∩ list_to_set excl : gset string))
    then Raise (InvalidArgumentCombo (exclusive_msg (list_to_set incl ∩ list_to_set excl)))
    else Return ().
Proof.
  intros Hi He. unfold check_include_and_exclude_are_mutually_exclusive.
  by rewrite Hi, He.
Qed.

(** Neither rule raises a [ValidationError]. *)
Lemma check_valid_quantity_raises data e :
  check_valid_quantity_and_include_ursulas data = Raise e →
  e = InvalidArgumentCombo quantity_msg ∨ e = KeyError "quantity" ∨ ∃ m, e = TypeError m.
Proof.
  unfold check_valid_quantity_and_include_ursulas.
  destruct (data !! "include_ursulas") as [v|]; [|done].
  destruct v as [| l | | |]; simpl; try (intros [= <-]; eauto; fail).
  case_bool_decide; [|done].
  destruct (data !! "quantity") as [v|]; [|intros [= <-]; eauto].
  destruct v as [q | | | |]; simpl; try (intros [= <-]; eauto; fail).
  destruct (q <? _)%Z; [|done]. intros [= <-]. eauto.
Qed.

Lemma check_include_and_exclude_raises data e :
  check_include_and_exclude_are_mutually_exclusive data = Raise e →
  (∃ S, e = InvalidArgumentCombo (exclusive_msg S)) ∨ ∃ m, e = TypeError m.
Proof.
  unfold check_include_and_exclude_are_mutually_exclusive, get_or_empty.
  destruct (data !! "include_ursulas") as [[| incl | | |]|]; simpl;
    try (intros [= <-]; eauto; fail);
    (destruct (data !! "exclude_ursulas") as [[| excl | | |]|]; simpl;
      try (intros [= <-]; eauto; fail));
    (case_bool_decide; [|done]; intros [= <-]; eauto).
Qed.

(** *** [load] once every field has passed *)

Lemma Alice_load_passed raw data :
  Schema_deserialize (AliceGetUrsulas F) raw = Return (data, ∅) →
  load (AliceGetUrsulas F) raw =
    match check_include_and_exclude_are_mutually_exclusive data with
    | Raise e => Raise e
    | Return _ =>
        match check_valid_quantity_and_include_ursulas data with
        | Raise e => Raise e
        | Return _ => Return data
        end
    end.
Proof.
  intros H. unfold load. rewrite H. cbn -[resolve_hooks].
  rewrite Alice_resolve_hooks. simpl.
  destruct (check_include_and_exclude_are_mutually_exclusive data) as [[]|e] eqn:H1.
  - destruct (check_valid_quantity_and_include_ursulas data) as [[]|e] eqn:H2; [done|].
    apply check_valid_quantity_raises in H2 as [-> | [-> | [m ->]]]; done.
  - apply check_include_and_exclude_raises in H1 as [[S ->] | [m ->]]; done.
Qed.

End AliceGetUrsulas.

(** ** The cross-field rules of [AliceGetUrsulas] *)

(** C4, as the code has it.  Once every field has passed, [load] runs the two
    rules in the order of their method names, the include/exclude rule first,
    and stops at the first that raises: when the include/exclude rule raises,
    [load] raises that exception whatever the quantity rule would say; when it
    passes and the quantity rule raises, [load] raises that one; when both
    pass, [load] returns the result.  So a call reports at most one
    cross-field error. *)
Theorem load_stops_at_first_failing_rule (F : field_classes) (raw : gmap string json)
    (data : gmap string value) :
  Schema_deserialize (AliceGetUrsulas F) raw = Return (data, ∅) →
  (∀ e, check_include_and_exclude_are_mutually_exclusive data = Raise e →
        load (AliceGetUrsulas F) raw = Raise e) ∧
  (check_include_and_exclude_are_mutually_exclusive data = Return () →
   ∀ e, check_valid_quantity_and_include_ursulas data = Raise e →
        load (AliceGetUrsulas F) raw = Raise e) ∧
  (check_include_and_exclude_are_mutually_exclusive data = Return () →
   check_valid_quantity_and_include_ursulas data = Return () →
   load (AliceGetUrsulas F) raw = Return data).
Proof.
  intros H. rewrite (Alice_load_passed F raw data H).
  split; [|split].
  - by intros e ->.
  - by intros -> e ->.
  - by intros -> ->.
Qed.

Lemma load_stops_at_first_failing_rule_witness :
  load (AliceGetUrsulas Samples.classes)
       (Samples.request 1 [Samples.A; Samples.B] (Some [Samples.B])) =
  Raise (InvalidArgumentCombo (exclusive_msg {[ Samples.B ]})).
Proof.
  refine (proj1 (load_stops_at_first_failing_rule Samples.classes _
    {[ "quantity" := VInt 1;
       "include_ursulas" := VList [Samples.A; Samples.B];
       "exclude_ursulas" := VList [Samples.B] ]} _) _ _).
  - vm_compute. reflexivity.
  - vm_compute. reflexivity.
Defined.

(** C4, as stated, fails: with quantity 1, two addresses to include and one of
    them to exclude, every field passes and the quantity rule (the first in the
    class body) raises on the result, but what [load] raises is the error of
    the include/exclude rule. *)
Lemma quantity_rule_does_not_run_first :
  let raw := Samples.request 1 [Samples.A; Samples.B] (Some [Samples.B]) in
  ∃ data,
    Schema_deserialize (AliceGetUrsulas Samples.classes) raw = Return (data, ∅) ∧
    check_valid_quantity_and_include_ursulas data = Raise (InvalidArgumentCombo quantity_msg) ∧
    load (AliceGetUrsulas Samples.classes) raw ≠ Raise (InvalidArgumentCombo quantity_msg) ∧
    load (AliceGetUrsulas Samples.classes) raw =
      Raise (InvalidArgumentCombo (exclusive_msg {[ Samples.B ]})).
Proof.
  eexists. split; [vm_compute; reflexivity|].
  split; [vm_compute; reflexivity|].
  split; [vm_compute; discriminate|vm_compute; reflexivity].
Qed.

(** C1, as the code has it.  With a non-empty include list and every field
    passed, the quantity rule raises [InvalidArgumentCombo] exactly when the
    list is longer than [quantity]; [load] fails with [InvalidArgumentCombo]
    exactly when the list is longer than [quantity] or shares an address with
    the exclude list, and returns the result otherwise (a list as long as
    [quantity] is allowed). *)
Theorem load_include_longer_than_quantity (F : field_classes) (raw : gmap string json)
    (data : gmap string value) (q : Z) (incl excl : list string) :
  Schema_deserialize (AliceGetUrsulas F) raw = Return (data, ∅) →
  data !! "quantity" = Some (VInt q) →
  data !! "include_ursulas" = Some (VList incl) →
  incl ≠ [] →
  get_or_empty data "exclude_ursulas" = Return excl →
  (check_valid_quantity_and_include_ursulas data = Raise (InvalidArgumentCombo quantity_msg) ↔
   (q < Z.of_nat (length incl))%Z) ∧
  ((∃ msg, load (AliceGetUrsulas F) raw = Raise (InvalidArgumentCombo msg)) ↔
   (q < Z.of_nat (length incl))%Z ∨ ∃ a, a ∈ incl ∧ a ∈ excl) ∧
  (load (AliceGetUrsulas F) raw = Return data ↔
   (Z.of_nat (length incl) ≤ q)%Z ∧ ∀ a, a ∈ incl → a ∉ excl).
Proof.
  intros H Hq Hi Hne He.
  rewrite (Alice_load_passed F raw data H).
  rewrite (check_valid_quantity_loaded data q incl Hq Hi Hne).
  rewrite (check_include_and_exclude_loaded data incl excl); [|by unfold get_or_empty; rewrite Hi|done].
  pose proof (common_ursulas_nonempty incl excl) as Hc.
  case_bool_decide as Hs; destruct (Z.ltb_spec q (Z.of_nat (length incl))) as [Hlt|Hge].
  - split; [done|]. split; [|split; [done|intros [? _]; lia]].
    split; [auto|eauto].
  - split; [split; [done|lia]|]. split; [|split; [done|]].
    + split; [intros _; right; by apply Hc|eauto].
    + intros [_ Hd]. apply Hc in Hs as (a & ? & ?). by destruct (Hd a).
  - split; [done|]. split; [|split; [done|intros [? _]; lia]].
    split; [auto|eauto].
  - split; [split; [done|lia]|]. split.
    + split; [by intros [? ?]|]. intros [?|Ha]; [lia|]. by apply Hc in Ha.
    + split; [|done]. intros _. split; [done|].
      intros a Ha Ha'. apply Hs, Hc. eauto.
Qed.

Lemma load_include_longer_than_quantity_witness :
  ∃ msg, load (AliceGetUrsulas Samples.classes)
              (Samples.request 2 [Samples.A; Samples.B; Samples.C] None) =
         Raise (InvalidArgumentCombo msg).
Proof.
  refine (proj2 (proj1 (proj2 (load_include_longer_than_quantity Samples.classes _
    {[ "quantity" := VInt 2;
       "include_ursulas" := VList [Samples.A; Samples.B; Samples.C] ]}
    2 [Samples.A; Samples.B; Samples.C] [] _ _ _ _ _))) _).
  - vm_compute. reflexivity.
  - vm_compute. reflexivity.
  - vm_compute. reflexivity.
  - discriminate.
  - vm_compute. reflexivity.
  - left. simpl. lia.
Defined.

(** C1, as stated, fails: with quantity 3, three addresses to include and one
    of them to exclude, every field passes and the include list is not longer
    than [quantity], yet [load] fails with [InvalidArgumentCombo]. *)
Lemma load_fails_with_include_as_long_as_quantity :
  let raw := Samples.request 3 [Samples.A; Samples.B; Samples.C] (Some [Samples.A]) in
  ∃ data,
    Schema_deserialize (AliceGetUrsulas Samples.classes) raw = Return (data, ∅) ∧
    data !! "quantity" = Some (VInt 3) ∧
    data !! "include_ursulas" = Some (VList [Samples.A; Samples.B; Samples.C]) ∧
    ¬ ((∃ msg, load (AliceGetUrsulas Samples.classes) raw = Raise (InvalidArgumentCombo msg)) ↔
       (3 < Z.of_nat (length [Samples.A; Samples.B; Samples.C]))%Z).
Proof.
  eexists. split; [vm_compute; reflexivity|].
  split; [vm_compute; reflexivity|].
  split; [vm_compute; reflexivity|].
  intros [Hf _]. simpl in Hf. assert (3 < 3)%Z; [|lia].
  apply Hf. eexists. vm_compute. reflexivity.
Qed.

(** The two requests of the specification, with no exclude list. *)
Example load_quantity_2_include_3 :
  load (AliceGetUrsulas Samples.classes)
       (Samples.request 2 [Samples.A; Samples.B; Samples.C] None) =
  Raise (InvalidArgumentCombo quantity_msg).
Proof. vm_compute. reflexivity. Qed.

Example load_quantity_3_include_3 :
  load (AliceGetUrsulas Samples.classes)
       (Samples.request 3 [Samples.A; Samples.B; Samples.C] None) =
  Return {[ "quantity" := VInt 3;
            "include_ursulas" := VList [Samples.A; Samples.B; Samples.C] ]}.
Proof. vm_compute. reflexivity. Qed.

(** The quantity rule in terms of the include list that [get_or_empty] reads. *)
Lemma check_valid_quantity_get_or_empty (data : gmap string value) (incl : list string) :
  get_or_empty data "include_ursulas" = Return incl →
  check_valid_quantity_and_include_ursulas data =
    if bool_decide (incl ≠ [])
    then
      match data !! "quantity" with
      | None => Raise (KeyError "quantity")
      | Some q =>
          quantity ← as_int q;
          if (quantity <? Z.of_nat (length incl))%Z
          then Raise (InvalidArgumentCombo quantity_msg)
          else Return ()
      end
    else Return ().
Proof.
  unfold get_or_empty, check_valid_quantity_and_include_ursulas.
  destruct (data !! "include_ursulas") as [[| l | | |]|]; simpl; try done.
  - by intros [= <-].
  - by intros [= <-].
Qed.

(** C2, as the code has it.  Once every field has passed, [load] fails with
    the error of the include/exclude rule exactly when the two lists share an
    address, and the set that error names is exactly the set of the shared
    addresses; [load] fails with [InvalidArgumentCombo] exactly when the lists
    share an address or the include list is not empty and longer than
    [quantity]. *)
Theorem load_include_exclude_overlap (F : field_classes) (raw : gmap string json)
    (data : gmap string value) (incl excl : list string) :
  Schema_deserialize (AliceGetUrsulas F) raw = Return (data, ∅) →
  get_or_empty data "include_ursulas" = Return incl →
  get_or_empty data "exclude_ursulas" = Return excl →
  ((∃ S, load (AliceGetUrsulas F) raw = Raise (InvalidArgumentCombo (exclusive_msg S))) ↔
   ∃ a, a ∈ incl ∧ a ∈ excl) ∧
  (∀ S, load (AliceGetUrsulas F) raw = Raise (InvalidArgumentCombo (exclusive_msg S)) →
        ∀ a, a ∈ S ↔ a ∈ incl ∧ a ∈ excl) ∧
  ((∃ msg, load (AliceGetUrsulas F) raw = Raise (InvalidArgumentCombo msg)) ↔
   (∃ a, a ∈ incl ∧ a ∈ excl) ∨
   (∃ q, data !! "quantity" = Some (VInt q) ∧ incl ≠ [] ∧ (q < Z.of_nat (length incl))%Z)).
Proof.
  intros H Hi He.
  destruct (deserialize_quantity_present F raw data H) as [q Hq].
  rewrite (Alice_load_passed F raw data H).
  rewrite (check_valid_quantity_get_or_empty data incl Hi), Hq. simpl.
  rewrite (check_include_and_exclude_loaded data incl excl Hi He).
  pose proof (common_ursulas_nonempty incl excl) as Hc.
  case_bool_decide as Hs.
  - split; [|split].
    + split; [intros _; by apply Hc|eauto].
    + intros S [= <-] a. by rewrite elem_of_intersection, !elem_of_list_to_set.
    + split; [intros _; left; by apply Hc|eauto].
  - assert (Hd : ¬ ∃ a, a ∈ incl ∧ a ∈ excl) by (by rewrite <- Hc).
    case_bool_decide as Hne.
    + destruct (Z.ltb_spec q (Z.of_nat (length incl))) as [Hlt|Hge].
      * split; [|split].
        -- split; [by intros [S [=]]|done].
        -- by intros S [=].
        -- split; [intros _; right; eauto|eauto].
      * split; [|split].
        -- split; [by intros [S [=]]|done].
        -- by intros S [=].
        -- split; [by intros [? [=]]|].
           intros [?|(q' & [= <-] & _ & ?)]; [done|lia].
    + split; [|split].
      * split; [by intros [S [=]]|done].
      * by intros S [=].
      * split; [by intros [? [=]]|]. by intros [?|(q' & _ & ? & _)].
Qed.

Lemma load_include_exclude_overlap_witness :
  ∃ S, load (AliceGetUrsulas Samples.classes)
            (Samples.request 2 [Samples.A; Samples.B] (Some [Samples.B; Samples.C])) =
       Raise (InvalidArgumentCombo (exclusive_msg S)).
Proof.
  refine (proj2 (proj1 (load_include_exclude_overlap Samples.classes _
    {[ "quantity" := VInt 2;
       "include_ursulas" := VList [Samples.A; Samples.B];
       "exclude_ursulas" := VList [Samples.B; Samples.C] ]}
    [Samples.A; Samples.B] [Samples.B; Samples.C] _ _ _)) _).
  - vm_compute. reflexivity.
  - vm_compute. reflexivity.
  - vm_compute. reflexivity.
  - exists Samples.B. split; apply (bool_decide_unpack _); vm_compute; exact I.
Defined.

(** C2, as stated, fails: with quantity 1, two addresses to include and no
    exclude list, every field passes and the lists share nothing, yet [load]
    fails with [InvalidArgumentCombo]. *)
Lemma load_fails_with_disjoint_lists :
  let raw := Samples.request 1 [Samples.A; Samples.B] None in
  ∃ data,
    Schema_deserialize (AliceGetUrsulas Samples.classes) raw = Return (data, ∅) ∧
    get_or_empty data "include_ursulas" = Return [Samples.A; Samples.B] ∧
    get_or_empty data "exclude_ursulas" = Return [] ∧
    ¬ ((∃ msg, load (AliceGetUrsulas Samples.classes) raw = Raise (InvalidArgumentCombo msg)) ↔
       ∃ a, a ∈ [Samples.A; Samples.B] ∧ a ∈ @nil string).
Proof.
  eexists. split; [vm_compute; reflexivity|].
  split; [vm_compute; reflexivity|].
  split; [vm_compute; reflexivity|].
  intros [Hf _]. destruct Hf as (a & _ & Ha).
  - eexists. vm_compute. reflexivity.
  - by apply elem_of_nil in Ha.
Qed.

(** The request of the specification (with a quantity, which is required). *)
Example load_include_AB_exclude_BC :
  load (AliceGetUrsulas Samples.classes)
       (Samples.request 2 [Samples.A; Samples.B] (Some [Samples.B; Samples.C])) =
  Raise (InvalidArgumentCombo (exclusive_msg {[ Samples.B ]})).
Proof. vm_compute. reflexivity. Qed.

(** C10, as the code has it.  For two requests whose include lists hold the
    same addresses and whose exclude lists hold the same addresses (one is the
    other with entries permuted or repeated), the include/exclude rule gives
    the same outcome, and [load] fails with that rule's error for the one
    exactly when it does for the other, naming the same set; when moreover the
    quantity is the same and the include lists are as long as each other (so
    for permuted entries, and for repeated entries of the exclude list),
    [load] raises the same exceptions for both. *)
Theorem include_exclude_rule_depends_on_sets (F : field_classes)
    (raw raw' : gmap string json) (data data' : gmap string value)
    (incl incl' excl excl' : list string) :
  Schema_deserialize (AliceGetUrsulas F) raw = Return (data, ∅) →
  Schema_deserialize (AliceGetUrsulas F) raw' = Return (data', ∅) →
  get_or_empty data "include_ursulas" = Return incl →
  get_or_empty data' "include_ursulas" = Return incl' →
  get_or_empty data "exclude_ursulas" = Return excl →
  get_or_empty data' "exclude_ursulas" = Return excl' →
  (∀ a, a ∈ incl ↔ a ∈ incl') →
  (∀ a, a ∈ excl ↔ a ∈ excl') →
  check_include_and_exclude_are_mutually_exclusive data =
    check_include_and_exclude_are_mutually_exclusive data' ∧
  (∀ S, load (AliceGetUrsulas F) raw = Raise (InvalidArgumentCombo (exclusive_msg S)) ↔
        load (AliceGetUrsulas F) raw' = Raise (InvalidArgumentCombo (exclusive_msg S))) ∧
  (data !! "quantity" = data' !! "quantity" → length incl = length incl' →
   ∀ e, load (AliceGetUrsulas F) raw = Raise e ↔ load (AliceGetUrsulas F) raw' = Raise e).
Proof.
  intros H H' Hi Hi' He He' Hincl Hexcl.
  assert (Hset : (list_to_set incl ∩ list_to_set excl : gset string) =
                 list_to_set incl' ∩ list_to_set excl').
  { apply set_eq. intros a.
    rewrite !elem_of_intersection, !elem_of_list_to_set. by rewrite Hincl, Hexcl. }
  assert (Hrule : check_include_and_exclude_are_mutually_exclusive data =
                  check_include_and_exclude_are_mutually_exclusive data').
  { rewrite (check_include_and_exclude_loaded data incl excl Hi He).
    rewrite (check_include_and_exclude_loaded data' incl' excl' Hi' He').
    by rewrite Hset. }
  split; [done|].
  rewrite (Alice_load_passed F raw data H), (Alice_load_passed F raw' data' H').
  rewrite <- Hrule.
  split.
  - intros S.
    destruct (check_include_and_exclude_are_mutually_exclusive data) as [[]|e]; [|done].
    destruct (check_valid_quantity_and_include_ursulas data) as [[]|e] eqn:E;
      destruct (check_valid_quantity_and_include_ursulas data') as [[]|e'] eqn:E';
      try done;
      repeat match goal with
      | H : check_valid_quantity_and_include_ursulas _ = Raise _ |- _ =>
          apply check_valid_quantity_raises in H as [-> | [-> | [? ->]]]
      end; done.
  - intros Hq Hlen e.
    destruct (check_include_and_exclude_are_mutually_exclusive data) as [[]|e0]; [|done].
    rewrite (check_valid_quantity_get_or_empty data incl Hi).
    rewrite (check_valid_quantity_get_or_empty data' incl' Hi').
    rewrite <- Hq, <- Hlen.
    assert (Hnil : bool_decide (incl ≠ []) = bool_decide (incl' ≠ [])).
    { apply bool_decide_ext. destruct incl, incl'; done. }
    rewrite <- Hnil.
    case_bool_decide; [|done].
    destruct (data !! "quantity") as [q|]; [|done].
    destruct (as_int q) as [z|]; simpl; [|done].
    by destruct (z <? _)%Z.
Qed.

Lemma include_exclude_rule_depends_on_sets_witness :
  check_include_and_exclude_are_mutually_exclusive
    {[ "quantity" := VInt 2;
       "include_ursulas" := VList [Samples.A; Samples.B];
       "exclude_ursulas" := VList [Samples.B; Samples.C] ]} =
  check_include_and_exclude_are_mutually_exclusive
    {[ "quantity" := VInt 2;
       "include_ursulas" := VList [Samples.B; Samples.A; Samples.B];
       "exclude_ursulas" := VList [Samples.C; Samples.C; Samples.B] ]}.
Proof.
  refine (proj1 (include_exclude_rule_depends_on_sets Samples.classes
    (Samples.request 2 [Samples.A; Samples.B] (Some [Samples.B; Samples.C]))
    (Samples.request 2 [Samples.B; Samples.A; Samples.B]
                       (Some [Samples.C; Samples.C; Samples.B]))
    _ _
    [Samples.A; Samples.B] [Samples.B; Samples.A; Samples.B]
    [Samples.B; Samples.C] [Samples.C; Samples.C; Samples.B]
    _ _ _ _ _ _ _ _)).
  - vm_compute. reflexivity.
  - vm_compute. reflexivity.
  - vm_compute. reflexivity.
  - vm_compute. reflexivity.
  - vm_compute. reflexivity.
  - vm_compute. reflexivity.
  - intros a. rewrite !elem_of_cons, !elem_of_nil. tauto.
  - intros a. rewrite !elem_of_cons, !elem_of_nil. tauto.
Defined.

(** C10, as stated, fails: repeating the one entry of the include list keeps
    the set of its entries and makes [load] fail with [InvalidArgumentCombo]
    where it returned before (the list is now longer than the quantity). *)
Lemma repeated_include_entry_changes_load :
  let raw := Samples.request 1 [Samples.A] None in
  let raw' := Samples.request 1 [Samples.A; Samples.A] None in
  (∀ a, a ∈ [Samples.A] ↔ a ∈ [Samples.A; Samples.A]) ∧
  load (AliceGetUrsulas Samples.classes) raw =
    Return {[ "quantity" := VInt 1; "include_ursulas" := VList [Samples.A] ]} ∧
  load (AliceGetUrsulas Samples.classes) raw' = Raise (InvalidArgumentCombo quantity_msg) ∧
  ¬ ((∃ msg, load (AliceGetUrsulas Samples.classes) raw = Raise (InvalidArgumentCombo msg)) ↔
     (∃ msg, load (AliceGetUrsulas Samples.classes) raw' = Raise (InvalidArgumentCombo msg))).
Proof.
  split; [intros a; rewrite !elem_of_cons, !elem_of_nil; tauto|].
  split; [vm_compute; reflexivity|].
  split; [vm_compute; reflexivity|].
  intros [_ Hf]. destruct Hf as [msg Hm].
  - eexists. vm_compute. reflexivity.
  - vm_compute in Hm. discriminate.
Qed.

(** C7.  When a field has failed, [load] raises the collected field errors and
    runs no rule.  When the input has no [include_ursulas], the loaded result
    has none either, and neither rule raises on it, whatever [quantity] and
    [exclude_ursulas] are: if no field failed [load] returns the result. *)
Theorem rules_pass_without_include (F : field_classes) (raw : gmap string json)
    (data : gmap string value) (errors : gmap string (list string)) :
  Schema_deserialize (AliceGetUrsulas F) raw = Return (data, errors) →
  (errors ≠ ∅ →
   load (AliceGetUrsulas F) raw = Raise (InvalidInputData (Errors (MDict errors)))) ∧
  (raw !! "include_ursulas" = None →
   data !! "include_ursulas" = None ∧
   check_valid_quantity_and_include_ursulas data = Return () ∧
   check_include_and_exclude_are_mutually_exclusive data = Return () ∧
   (errors = ∅ → load (AliceGetUrsulas F) raw = Return data)).
Proof.
  intros H. split.
  - intros Hne. by apply (load_field_errors _ raw data errors (Alice_derives_BaseSchema F)).
  - intros Hraw.
    pose proof (deserialize_include_absent F raw data errors H Hraw) as Hi.
    destruct (get_or_empty_typed F raw data errors "exclude_ursulas" H) as [excl He]; [by left|].
    assert (Hv : check_valid_quantity_and_include_ursulas data = Return ()).
    { apply check_valid_quantity_empty. by left. }
    assert (Hx : check_include_and_exclude_are_mutually_exclusive data = Return ()).
    { rewrite (check_include_and_exclude_loaded data [] excl);
        [|by unfold get_or_empty; rewrite Hi|done].
      case_bool_decide as Hs; [|done].
      apply common_ursulas_nonempty in Hs as (a & Ha & _). by apply elem_of_nil in Ha. }
    repeat split; try done.
    intros ->. by rewrite (Alice_load_passed F raw data H), Hx, Hv.
Qed.

Lemma rules_pass_without_include_witness :
  load (AliceGetUrsulas Samples.classes)
       {[ "quantity" := JInt 1; "exclude_ursulas" := JList [JStr Samples.A; JStr Samples.B] ]} =
  Return {[ "quantity" := VInt 1; "exclude_ursulas" := VList [Samples.A; Samples.B] ]}.
Proof.
  refine (proj2 (proj2 (proj2 (proj2 (rules_pass_without_include Samples.classes _ _ ∅ _) _))) _).
  - vm_compute. reflexivity.
  - vm_compute. reflexivity.
  - reflexivity.
Defined.

(** C9.  On a result whose include list is absent or empty the quantity rule
    returns without raising, whatever is stored under [quantity], and also
    when nothing is: it does not read that key.  And when the rule does read
    it, inside [load], every field has passed, so the key is there and the
    lookup raises no [KeyError]. *)
Theorem quantity_rule_skips_empty_include :
  (∀ data : gmap string value,
     data !! "include_ursulas" = None ∨ data !! "include_ursulas" = Some (VList []) →
     check_valid_quantity_and_include_ursulas data = Return () ∧
     check_valid_quantity_and_include_ursulas (delete "quantity" data) = Return () ∧
     ∀ v, check_valid_quantity_and_include_ursulas (<["quantity" := v]> data) = Return ()) ∧
  (∀ (F : field_classes) (raw : gmap string json) (data : gmap string value),
     Schema_deserialize (AliceGetUrsulas F) raw = Return (data, ∅) →
     ∀ k, check_valid_quantity_and_include_ursulas data ≠ Raise (KeyError k)).
Proof.
  split.
  - intros data Hi. split; [|split; [|intros v]]; apply check_valid_quantity_empty.
    + done.
    + by rewrite lookup_delete_ne.
    + by rewrite lookup_insert_ne.
  - intros F raw data H k.
    destruct (deserialize_quantity_present F raw data H) as [q Hq].
    unfold check_valid_quantity_and_include_ursulas. rewrite Hq.
    destruct (data !! "include_ursulas") as [[| l | | |]|]; simpl; try done.
    case_bool_decide; [|done]. by destruct (q <? _)%Z.
Qed.

Lemma quantity_rule_skips_empty_include_witness :
  check_valid_quantity_and_include_ursulas {[ "include_ursulas" := VList [] ]} = Return () ∧
  check_valid_quantity_and_include_ursulas
    {[ "quantity" := VInt 2; "include_ursulas" := VList [Samples.A; Samples.B] ]}
    ≠ Raise (KeyError "quantity").
Proof.
  destruct quantity_rule_skips_empty_include as [H1 H2]. split.
  - refine (proj1 (H1 {[ "include_ursulas" := VList [] ]} _)).
    right. vm_compute. reflexivity.
  - refine (H2 Samples.classes (Samples.request 2 [Samples.A; Samples.B] None) _ _ _).
    vm_compute. reflexivity.
Defined.

(** ** Unknown keys are passed through *)

Lemma deserialize_fields_unknown fs (raw extras : gmap string json) ret_d errors :
  (∀ k, k ∈ dom extras → k ∉ fs.*1) →
  deserialize_fields fs (extras ∪ raw) ret_d errors = deserialize_fields fs raw ret_d errors.
Proof.
  revert ret_d errors.
  induction fs as [|[n f] fs IH]; intros ret_d errors Hx; simpl; [done|].
  assert (He : extras !! n = None).
  { apply not_elem_of_dom. intros Hin. apply (Hx n Hin). simpl. by left. }
  rewrite lookup_union_r by done.
  assert (Hx' : ∀ k, k ∈ dom extras → k ∉ fs.*1).
  { intros k Hk Hin. apply (Hx k Hk). simpl. by right. }
  destruct (deserialize f (raw !! n)) as [[v|]|msgs|e]; auto.
Qed.

Lemma unknown_part_union s (raw extras : gmap string json) :
  (∀ k, k ∈ dom extras → k ∉ field_names s) →
  unknown_part s (extras ∪ raw) = extras ∪ unknown_part s raw.
Proof.
  intros Hx. apply map_eq. intros k.
  destruct (decide (k ∈ field_names s)) as [Hin|Hin].
  - rewrite unknown_part_lookup_field by done.
    rewrite lookup_union_r, unknown_part_lookup_field; [done|done|].
    apply not_elem_of_dom. intros Hk. by apply (Hx k Hk).
  - rewrite unknown_part_lookup_other by done.
    by rewrite !lookup_union, unknown_part_lookup_other.
Qed.

Lemma Schema_deserialize_unknown s (raw extras : gmap string json) :
  unknown s = INCLUDE →
  (∀ k, k ∈ dom extras → k ∉ field_names s) →
  Schema_deserialize s (extras ∪ raw) =
    '(data, errors) ← Schema_deserialize s raw; Return ((VRaw <$> extras) ∪ data, errors).
Proof.
  intros Hu Hx. unfold Schema_deserialize.
  rewrite deserialize_fields_unknown by done.
  destruct (deserialize_fields _ raw ∅ ∅) as [[ret_d errors]|e]; simpl; [|done].
  rewrite Hu. simpl.
  by rewrite unknown_part_union, map_fmap_union, (assoc_L (∪)).
Qed.

(** The two rules read the three fields only. *)
Lemma rules_ignore_unknown (data : gmap string value) (extras : gmap string json) :
  (∀ k, k ∈ dom extras → k ∉ ["quantity"; "exclude_ursulas"; "include_ursulas"]) →
  check_valid_quantity_and_include_ursulas ((VRaw <$> extras) ∪ data) =
    check_valid_quantity_and_include_ursulas data ∧
  check_include_and_exclude_are_mutually_exclusive ((VRaw <$> extras) ∪ data) =
    check_include_and_exclude_are_mutually_exclusive data.
Proof.
  intros Hx.
  assert (Hl : ∀ k, k ∈ ["quantity"; "exclude_ursulas"; "include_ursulas"] →
               ((VRaw <$> extras) ∪ data) !! k = data !! k).
  { intros k Hk. apply lookup_union_r. rewrite lookup_fmap.
    assert (extras !! k = None) as ->; [|done].
    apply not_elem_of_dom. intros Hin. by apply (Hx k Hin). }
  unfold check_valid_quantity_and_include_ursulas,
    check_include_and_exclude_are_mutually_exclusive, get_or_empty.
  rewrite !Hl; [done|set_solver..].
Qed.

Lemma invoke_schema_validators_unknown hooks (data : gmap string value)
    (extras : gmap string json) errors field_errors :
  Forall (λ h : string * Validator,
            ∀ d, run h.2 ((VRaw <$> extras) ∪ d) = run h.2 d) hooks →
  invoke_schema_validators hooks ((VRaw <$> extras) ∪ data) errors field_errors =
    invoke_schema_validators hooks data errors field_errors.
Proof.
  intros Hh. revert errors.
  induction Hh as [|[n v] hooks Hv _ IH]; intros errors; simpl; [done|].
  simpl in Hv. rewrite Hv.
  destruct (field_errors && skip_on_field_errors v); [done|].
  destruct (run v data) as [[]|[[l|d]| | | | |]]; auto.
Qed.

(** For a schema with [unknown = INCLUDE] whose validators do not read the
    added keys. *)
Lemma load_unknown_keys (s : Schema) (raw extras : gmap string json) :
  unknown s = INCLUDE →
  (∀ k, k ∈ dom extras → k ∉ field_names s) →
  Forall (λ h : string * Validator,
            ∀ d, run h.2 ((VRaw <$> extras) ∪ d) = run h.2 d) (schema_validators s) →
  load s (extras ∪ raw) =
    match load s raw with
    | Return data => Return ((VRaw <$> extras) ∪ data)
    | Raise e => Raise e
    end.
Proof.
  intros Hu Hx Hv. unfold load.
  rewrite (Schema_deserialize_unknown s raw extras Hu Hx).
  destruct (Schema_deserialize s raw) as [[data errors]|e]; simpl; [|done].
  rewrite invoke_schema_validators_unknown by (by rewrite resolve_hooks_Permutation).
  destruct (invoke_schema_validators _ data errors _) as [errors'|e]; simpl; [|done].
  case_bool_decide; [|done]. by destruct (handle_error s (MDict errors')).
Qed.

(** C5.  Keys of the input that are not fields to load never make [load]
    fail, for each of the three schemas: with such keys added, [load] raises
    what it raised without them, and where it returned a result it returns
    that result with the added keys copied in as they came. *)
Theorem unknown_keys_pass_through (F : field_classes) (B : bob_classes) (s : Schema)
    (raw extras : gmap string json) :
  s = AliceGetUrsulas F ∨ s = AliceRevoke ∨ s = BobRetrieveCFrags B →
  (∀ k, k ∈ dom extras → k ∉ field_names s) →
  load s (extras ∪ raw) =
    match load s raw with
    | Return data => Return ((VRaw <$> extras) ∪ data)
    | Raise e => Raise e
    end.
Proof.
  intros Hs Hx. apply load_unknown_keys; [by destruct Hs as [->|[->| ->]]|done|].
  destruct Hs as [->|[->| ->]]; simpl; [|constructor..].
  rewrite Alice_field_names in Hx.
  repeat constructor; intros d; simpl; by apply rules_ignore_unknown.
Qed.

Lemma unknown_keys_pass_through_witness :
  load (AliceGetUrsulas Samples.classes)
       {[ "quantity" := JInt 2; "duration" := JInt 7; "ursulas" := JNull ]} =
  Return {[ "quantity" := VInt 2; "duration" := VRaw (JInt 7); "ursulas" := VRaw JNull ]}.
Proof.
  refine (eq_trans _ (eq_trans
    (unknown_keys_pass_through Samples.classes (Samples.bob false) _
       {[ "quantity" := JInt 2 ]}
       {[ "duration" := JInt 7; "ursulas" := JNull ]} (or_introl eq_refl) _) _)).
  - vm_compute. reflexivity.
  - intros k Hk. apply (bool_decide_unpack _).
    apply elem_of_dom in Hk as [v Hv].
    destruct (decide (k = "duration")) as [->|?]; [vm_compute; exact I|].
    destruct (decide (k = "ursulas")) as [->|?]; [vm_compute; exact I|].
    exfalso. rewrite lookup_insert_ne, lookup_singleton_ne in Hv by done. discriminate.
  - vm_compute. reflexivity.
Defined.

(** ** [TreasureMap._deserialize] *)

(** C6.  Whatever exception the base64 step or the parser of the domain
    raises, [_deserialize] raises [InvalidInputData] with a text in which the
    name of the field and the text of that exception occur; it raises nothing
    else, and when both steps return it returns the parsed object. *)
Theorem TreasureMap_deserialize_raises_InvalidInputData
    {TreasureMapClass : Type} (name : string) (str : exn → string)
    (super_deserialize : json → result bytes)
    (from_bytes : bytes → result TreasureMapClass) (value : json) :
  let decode := TreasureMap._deserialize name str super_deserialize from_bytes in
  (∀ e,
     super_deserialize value = Raise e ∨
     (∃ b, super_deserialize value = Return b ∧ from_bytes b = Raise e) →
     ∃ pre mid,
       decode value = Raise (InvalidInputData (Text (pre +:+ name +:+ mid +:+ str e)))) ∧
  (∀ e, decode value = Raise e → ∃ msg, e = InvalidInputData (Text msg)) ∧
  (∀ b t, super_deserialize value = Return b → from_bytes b = Return t →
          decode value = Return t).
Proof.
  simpl. unfold TreasureMap._deserialize. split; [|split].
  - intros e [H|(b & Hb & H)];
      exists "Could not convert input for ", " to a TreasureMap: ".
    + by rewrite H.
    + rewrite Hb. simpl. by rewrite H.
  - intros e.
    destruct (super_deserialize value) as [b|e0]; simpl.
    + destruct (from_bytes b) as [t|e0]; [done|]. intros [= <-]. eauto.
    + intros [= <-]. eauto.
  - intros b t -> Ht. simpl. by rewrite Ht.
Qed.

Example TreasureMap_deserialize_bad_base64 :
  TreasureMap._deserialize (TreasureMapClass := object)
    "treasure_map"
    (λ e, match e with Exception _ msg => msg | _ => "" end)
    (λ _, Raise (Exception "binascii.Error" "Incorrect padding"))
    (λ b, Return (Object "TreasureMap" b))
    (JStr "abc") =
  Raise (InvalidInputData
           (Text "Could not convert input for treasure_map to a TreasureMap: Incorrect padding")).
Proof. reflexivity. Qed.

Lemma TreasureMap_deserialize_raises_InvalidInputData_witness :
  ∃ pre mid,
    TreasureMap._deserialize (TreasureMapClass := object)
      "treasure_map"
      (λ e, match e with Exception _ msg => msg | _ => "" end)
      (λ j, match j with
            | JStr s => Return (String.list_byte_of_string s)
            | _ => Raise (TypeError "not a str")
            end)
      (λ _, Raise (Exception "ValueError" "Failed to deserialize"))
      (JStr "abc") =
    Raise (InvalidInputData
             (Text (pre +:+ "treasure_map" +:+ mid +:+ "Failed to deserialize"))).
Proof.
  refine (proj1 (TreasureMap_deserialize_raises_InvalidInputData (TreasureMapClass := object)
    "treasure_map" (λ e, match e with Exception _ msg => msg | _ => "" end)
    (λ j, match j with
          | JStr s => Return (String.list_byte_of_string s)
          | _ => Raise (TypeError "not a str")
          end)
    (λ _, Raise (Exception "ValueError" "Failed to deserialize")) (JStr "abc"))
    (Exception "ValueError" "Failed to deserialize") _).
  right. eexists. split; reflexivity.
Defined.

(** ** The two surfaces *)

Import Cli.

(** The values given on the command line under one of the flags. *)
Lemma option_value_multiple (o : Click.option_decl) (args : parsed) :
  Click.multiple o = true → Click.default o = Some (JList []) →
  option_value o args = Some (JList (option_values o args)).
Proof.
  intros Hm Hd. unfold option_value. rewrite Hm, Hd.
  by destruct (option_values o args).
Qed.

Lemma option_value_single (o : Click.option_decl) (args : parsed) (v : json) :
  Click.multiple o = false → last (option_values o args) = Some v →
  option_value o args = Some v.
Proof.
  intros Hm Hl. unfold option_value. rewrite Hm.
  by destruct (option_values o args).
Qed.

(** The payload key by key. *)
Lemma json_payload_lookup (q : json) (excl incl : list json) (k : string) :
  json_payload q excl incl !! k =
    if decide (k = "quantity") then Some q
    else if decide (k = "exclude_ursulas") then Some (JList excl)
    else if decide (k = "include_ursulas") then Some (JList incl)
    else None.
Proof.
  unfold json_payload.
  repeat (case_decide; [subst; by simplify_map_eq|]).
  by simplify_map_eq.
Qed.

(** The loop over the fields when an optional field that decodes is taken
    out of the input: the same errors, or the same exception, and the same
    result less that key. *)
Lemma deserialize_fields_delete fs (raw : gmap string json) (key : string) ret_d errors :
  NoDup fs.*1 →
  (∀ f, (key, f) ∈ fs →
        required f = false ∧ ∃ v, deserialize f (raw !! key) = Decoded (Some v)) →
  deserialize_fields fs (delete key raw) (delete key ret_d) errors =
    ('(r, e) ← deserialize_fields fs raw ret_d errors; Return (delete key r, e)).
Proof.
  revert ret_d errors.
  induction fs as [|[n f] fs IH]; intros ret_d errors Hnd Hkey; simpl; [done|].
  apply NoDup_cons in Hnd as [Hn Hnd].
  destruct (decide (n = key)) as [->|Hne].
  - destruct (Hkey f) as (Hreq & v & Hv); [by left|].
    rewrite lookup_delete_eq, Hv. simpl. rewrite Hreq.
    rewrite <- (delete_insert_eq ret_d key v). apply IH; [done|].
    intros f0 Hin. destruct Hn. apply list_elem_of_fmap. by exists (key, f0).
  - rewrite lookup_delete_ne by done.
    assert (Hkey' : ∀ f0, (key, f0) ∈ fs →
              required f0 = false ∧ ∃ v, deserialize f0 (raw !! key) = Decoded (Some v)).
    { intros f0 Hin. apply Hkey. by right. }
    destruct (deserialize f (raw !! n)) as [[v|]|msgs|e]; [| | |done].
    + rewrite <- delete_insert_ne by done. by apply IH.
    + by apply IH.
    + by apply IH.
Qed.

Lemma Schema_deserialize_delete (s : Schema) (raw : gmap string json) (key : string)
    (fk : Field) (v : value) :
  unknown s = INCLUDE → NoDup (field_names s) →
  (key, fk) ∈ load_fields s → required fk = false →
  deserialize fk (raw !! key) = Decoded (Some v) →
  Schema_deserialize s (delete key raw) =
    ('(r, e) ← Schema_deserialize s raw; Return (delete key r, e)).
Proof.
  intros Hu Hnd Hin Hreq Hv. unfold Schema_deserialize.
  rewrite <- (delete_empty (M := gmap string) (A := value) key) at 1.
  rewrite deserialize_fields_delete; [|done|].
  2: { intros f Hf. rewrite (NoDup_fst_functional _ _ _ _ Hnd Hf Hin). eauto. }
  destruct (deserialize_fields _ raw ∅ ∅) as [[ret_d errors]|e]; simpl; [|done].
  rewrite Hu. simpl. f_equal. f_equal.
  assert (Hk : key ∈ field_names s) by (apply list_elem_of_fmap; by exists (key, fk)).
  assert (unknown_part s (delete key raw) = unknown_part s raw) as ->.
  { apply map_eq. intros k. destruct (decide (k ∈ field_names s)) as [Hf|Hf].
    - by rewrite !unknown_part_lookup_field.
    - rewrite !unknown_part_lookup_other by done.
      apply lookup_delete_ne. by intros ->. }
  apply map_eq. intros k. destruct (decide (k = key)) as [->|Hne].
  - rewrite lookup_delete_eq, lookup_union_r, lookup_delete_eq; [done|].
    by rewrite lookup_fmap, unknown_part_lookup_field.
  - rewrite lookup_delete_ne by done. rewrite !lookup_union.
    by rewrite lookup_delete_ne.
Qed.

(** Validators that give the same on two results. *)
Lemma invoke_schema_validators_ext hooks (data data' : gmap string value) errors field_errors :
  Forall (λ h : string * Validator, run h.2 data' = run h.2 data) hooks →
  invoke_schema_validators hooks data' errors field_errors =
    invoke_schema_validators hooks data errors field_errors.
Proof.
  intros Hh. revert errors.
  induction Hh as [|[n v] hooks Hv _ IH]; intros errors; simpl; [done|].
  simpl in Hv. rewrite Hv.
  destruct (field_errors && skip_on_field_errors v); [done|].
  destruct (run v data) as [[]|[[l|d]| | | | |]]; auto.
Qed.

(** The two rules read an empty list as they read an absent one. *)
Lemma rules_ignore_empty_list (data : gmap string value) (key : string) :
  key = "exclude_ursulas" ∨ key = "include_ursulas" →
  data !! key = Some (VList []) →
  check_valid_quantity_and_include_ursulas (delete key data) =
    check_valid_quantity_and_include_ursulas data ∧
  check_include_and_exclude_are_mutually_exclusive (delete key data) =
    check_include_and_exclude_are_mutually_exclusive data.
Proof.
  unfold check_valid_quantity_and_include_ursulas,
    check_include_and_exclude_are_mutually_exclusive, get_or_empty.
  intros [-> | ->] Hk.
  - rewrite lookup_delete_eq, Hk.
    by rewrite !(lookup_delete_ne data "exclude_ursulas") by done.
  - rewrite !lookup_delete_eq, Hk.
    by rewrite !(lookup_delete_ne data "include_ursulas") by done.
Qed.

(** A request that gives one of the optional lists as the empty list, and
    the same request without that key: [load] raises the same exception, or
    returns the same result less that key. *)
Lemma load_without_empty_list (F : field_classes) (raw : gmap string json) (key : string) :
  key = "exclude_ursulas" ∨ key = "include_ursulas" →
  raw !! key = Some (JList []) →
  StringList_UrsulaChecksumAddress F (JList []) = Decoded [] →
  load (AliceGetUrsulas F) (delete key raw) =
    (d ← load (AliceGetUrsulas F) raw; Return (delete key d)) ∧
  (∀ d, load (AliceGetUrsulas F) raw = Return d → d !! key = Some (VList [])).
Proof.
  intros Hkey Hraw Hempty.
  assert (∃ fk, (key, fk) ∈ load_fields (AliceGetUrsulas F) ∧ required fk = false ∧
                deserialize fk (raw !! key) = Decoded (Some (VList []))) as (fk & Hin & Hreq & Hd).
  { destruct Hkey as [-> | ->].
    - exists (field (exclude_ursulas F)). split; [apply Alice_in_exclude|]. split; [done|].
      rewrite Hraw. simpl. by rewrite Hempty.
    - exists (field (include_ursulas F)). split; [apply Alice_in_include|]. split; [done|].
      rewrite Hraw. simpl. by rewrite Hempty. }
  split.
  - unfold load.
    rewrite (Schema_deserialize_delete (AliceGetUrsulas F) raw key fk (VList [])
               eq_refl (Alice_NoDup F) Hin Hreq Hd).
    destruct (Schema_deserialize (AliceGetUrsulas F) raw) as [[data errors]|e] eqn:H;
      [|done].
    unfold mbind, result_bind. cbv beta iota.
    rewrite (invoke_schema_validators_ext _ data (delete key data)).
    + destruct (invoke_schema_validators _ data errors _) as [errors'|e]; [|done].
      by case_bool_decide.
    + rewrite Alice_resolve_hooks.
      destruct (rules_ignore_empty_list data key Hkey) as [Hv Hx].
      { by rewrite (Alice_lookup_field F raw data errors key fk H Hin), Hd. }
      by repeat constructor.
  - intros d Hload.
    rewrite (Alice_lookup_field F raw d ∅ key fk (load_Return_inv _ _ _ Hload) Hin).
    by rewrite Hd.
Qed.

(** The result of a request in which an optional list that is empty is left
    out, beside the result of the request that spells it out. *)
Lemma load_without_empty_lists (F : field_classes) (raw : gmap string json)
    (no_exclude no_include : bool) :
  StringList_UrsulaChecksumAddress F (JList []) = Decoded [] →
  (if no_exclude then raw !! "exclude_ursulas" = Some (JList [])
   else is_Some (raw !! "exclude_ursulas")) →
  (if no_include then raw !! "include_ursulas" = Some (JList [])
   else is_Some (raw !! "include_ursulas")) →
  match load (AliceGetUrsulas F)
          ((if no_exclude then delete "exclude_ursulas" else id)
             ((if no_include then delete "include_ursulas" else id) raw)),
        load (AliceGetUrsulas F) raw with
  | Return d, Return d' =>
      d' = d ∪ {[ "exclude_ursulas" := VList []; "include_ursulas" := VList [] ]}
  | Raise e, Raise e' => e = e'
  | _, _ => False
  end.
Proof.
  intros Hempty He Hi.
  assert (Hinner : load (AliceGetUrsulas F)
            ((if no_include then delete "include_ursulas" else id) raw) =
          (d ← load (AliceGetUrsulas F) raw;
           Return ((if no_include then delete "include_ursulas" else id) d))).
  { destruct no_include; simpl; [|by destruct (load _ raw)].
    by apply load_without_empty_list; [right| |]. }
  assert (Hload : load (AliceGetUrsulas F)
            ((if no_exclude then delete "exclude_ursulas" else id)
               ((if no_include then delete "include_ursulas" else id) raw)) =
          (d ← load (AliceGetUrsulas F) raw;
           Return ((if no_exclude then delete "exclude_ursulas" else id)
                     ((if no_include then delete "include_ursulas" else id) d)))).
  { destruct no_exclude; simpl; [|done].
    assert (Hx : (if no_include then delete "include_ursulas" else id) raw
                   !! "exclude_ursulas" = Some (JList [])).
    { destruct no_include; simpl; [by rewrite lookup_delete_ne|done]. }
    rewrite (proj1 (load_without_empty_list F _ "exclude_ursulas" (or_introl eq_refl)
                      Hx Hempty)).
    rewrite Hinner. by destruct (load _ raw). }
  rewrite Hload.
  destruct (load (AliceGetUrsulas F) raw) as [d'|e] eqn:Hl; simpl; [|done].
  destruct (Schema_deserialize_passed (AliceGetUrsulas F) raw d' eq_refl (Alice_NoDup F)
              (load_Return_inv _ _ _ Hl)) as [Hf _].
  assert (He' : if no_exclude then d' !! "exclude_ursulas" = Some (VList [])
                else is_Some (d' !! "exclude_ursulas")).
  { destruct no_exclude.
    - by apply (proj2 (load_without_empty_list F raw _ (or_introl eq_refl) He Hempty)).
    - destruct (Hf _ _ (Alice_in_exclude F)) as [(Hn & _)|(j & v & _ & _ & _ & ->)]; [|done].
      rewrite Hn in He. by destruct He. }
  assert (Hi' : if no_include then d' !! "include_ursulas" = Some (VList [])
                else is_Some (d' !! "include_ursulas")).
  { destruct no_include.
    - by apply (proj2 (load_without_empty_list F raw _ (or_intror eq_refl) Hi Hempty)).
    - destruct (Hf _ _ (Alice_in_include F)) as [(Hn & _)|(j & v & _ & _ & _ & ->)]; [|done].
      rewrite Hn in Hi. by destruct Hi. }
  apply map_eq. intros k. rewrite lookup_union.
  destruct (decide (k = "exclude_ursulas")) as [->|Hke].
  { rewrite lookup_insert_eq.
    destruct no_exclude; simpl.
    - by rewrite lookup_delete_eq, He'.
    - destruct He' as [v Hv].
      destruct no_include; simpl; rewrite ?lookup_delete_ne by done; by rewrite Hv. }
  destruct (decide (k = "include_ursulas")) as [->|Hki].
  { rewrite lookup_insert_ne, lookup_singleton_eq by done.
    destruct no_include; simpl.
    - destruct no_exclude; simpl; rewrite ?lookup_delete_ne by done;
        by rewrite lookup_delete_eq, Hi'.
    - destruct Hi' as [v Hv].
      destruct no_exclude; simpl; rewrite ?lookup_delete_ne by done; by rewrite Hv. }
  rewrite lookup_insert_ne, lookup_singleton_ne by done.
  destruct no_exclude, no_include; simpl;
    rewrite ?lookup_delete_ne by done; by destruct (d' !! k).
Qed.

(** A payload over the three parameters, from what it holds under each. *)
Lemma json_payload_eq (payload : gmap string json) (q : json) (excl incl : list json)
    (no_exclude no_include : bool) :
  payload !! "quantity" = Some q →
  payload !! "exclude_ursulas" = (if no_exclude then None else Some (JList excl)) →
  payload !! "include_ursulas" = (if no_include then None else Some (JList incl)) →
  dom payload ⊆ list_to_set ["quantity"; "exclude_ursulas"; "include_ursulas"] →
  payload =
    (if no_exclude then delete "exclude_ursulas" else id)
      ((if no_include then delete "include_ursulas" else id) (json_payload q excl incl)).
Proof.
  intros Hq He Hi Hdom. apply map_eq. intros k.
  assert (Hr : ((if no_exclude then delete "exclude_ursulas" else id)
                  ((if no_include then delete "include_ursulas" else id)
                     (json_payload q excl incl))) !! k =
               if decide (k = "quantity") then Some q
               else if decide (k = "exclude_ursulas")
                    then (if no_exclude then None else Some (JList excl))
               else if decide (k = "include_ursulas")
                    then (if no_include then None else Some (JList incl))
               else None).
  { destruct no_exclude, no_include; simpl;
      repeat (case_decide; [subst; rewrite ?lookup_delete_eq, ?lookup_delete_ne by done;
                            try done; by rewrite json_payload_lookup|]);
      rewrite ?lookup_delete_ne by done; rewrite json_payload_lookup;
      by repeat (case_decide; [done|]). }
  rewrite Hr. repeat (case_decide; [by subst|]).
  apply not_elem_of_dom. intros Hin. apply Hdom, elem_of_list_to_set in Hin.
  repeat (apply elem_of_cons in Hin as [->|Hin]; [done|]). by apply elem_of_nil in Hin.
Qed.




(** ** [BobRetrieveCFrags] *)

Lemma Bob_load_fields (B : bob_classes) :
  load_fields (BobRetrieveCFrags B) =
    [ ("treasure_map", field (treasure_map B));
      ("retrieval_kits", field (retrieval_kits B));
      ("alice_verifying_key", field (alice_verifying_key B));
      ("bob_encrypting_key", field (bob_encrypting_key B));
      ("bob_verifying_key", field (bob_verifying_key B));
      ("context", field (context B)) ].
Proof. reflexivity. Qed.

Lemma Bob_derives_BaseSchema (B : bob_classes) : derives_BaseSchema (BobRetrieveCFrags B).
Proof. split; [done|]. split; [done|]. constructor. Qed.

Lemma Bob_NoDup (B : bob_classes) : NoDup (field_names (BobRetrieveCFrags B)).
Proof.
  unfold field_names. rewrite Bob_load_fields. by apply (bool_decide_unpack _).
Qed.

(** If [InvalidInputData] is not a [ValidationError], a treasure map that does
    not decode ends [load] with the exception of [TreasureMap._deserialize],
    whatever the other fields are. *)
Lemma Bob_treasure_map_not_recorded (B : bob_classes) (raw : gmap string json)
    (j : json) (e : exn) :
  InvalidInputData_isa_ValidationError B = false →
  raw !! "treasure_map" = Some j → j ≠ JNull →
  TreasureMap._deserialize "treasure_map" (str B) (Base64BytesRepresentation_deserialize B)
    (TreasureMapClass_from_bytes B) j = Raise e →
  load (BobRetrieveCFrags B) raw = Raise e.
Proof.
  intros Hisa Hraw Hj He.
  apply (load_field_exception_propagates _ raw []
           [ ("retrieval_kits", field (retrieval_kits B));
             ("alice_verifying_key", field (alice_verifying_key B));
             ("bob_encrypting_key", field (bob_encrypting_key B));
             ("bob_verifying_key", field (bob_verifying_key B));
             ("context", field (context B)) ]
           "treasure_map" (field (treasure_map B)));
    [by rewrite Bob_load_fields| |].
  - intros n' f' e' Hin. by apply elem_of_nil in Hin.
  - assert (∃ msg, e = InvalidInputData (Text msg)) as [msg ->].
    { unfold TreasureMap._deserialize in He.
      destruct (_ ← _; _) in He; [done|]. injection He as <-. eauto. }
    rewrite Hraw. destruct j; try done; simpl; rewrite He; simpl; by rewrite Hisa.
Qed.

(** ** Requests with several failing fields *)



(** * What [load] returns and what it raises *)

(** ** What the loop raises and records *)

(** The loop raises only what a field let through. *)
Lemma deserialize_fields_Raise fs raw ret_d errors e :
  deserialize_fields fs raw ret_d errors = Raise e →
  ∃ name f, (name, f) ∈ fs ∧ deserialize f (raw !! name) = Raised e.
Proof.
  revert ret_d errors. induction fs as [|[n f] fs IH]; intros ret_d errors; simpl; [done|].
  destruct (deserialize f (raw !! n)) as [[v|]|msgs|e'] eqn:Hd.
  - intros (name & f0 & Hin & H)%IH. exists name, f0. split; [by right|done].
  - intros (name & f0 & Hin & H)%IH. exists name, f0. split; [by right|done].
  - intros (name & f0 & Hin & H)%IH. exists name, f0. split; [by right|done].
  - intros [= <-]. exists n, f. split; [by left|done].
Qed.

(** The store holds entries under the names of fields only. *)
Lemma deserialize_fields_errors_dom fs raw ret_d errors ret_d' errors' k :
  deserialize_fields fs raw ret_d errors = Return (ret_d', errors') →
  is_Some (errors' !! k) → is_Some (errors !! k) ∨ k ∈ fs.*1.
Proof.
  revert ret_d errors. induction fs as [|[n f] fs IH]; intros ret_d errors; simpl.
  - intros [= _ <-]. by left.
  - destruct (deserialize f (raw !! n)) as [[v|]|msgs|e'] eqn:Hd; [| | |done];
      intros H Hk; destruct (IH _ _ H Hk) as [Hs|Hin]; try (by right; right);
      try (by left).
    destruct (decide (n = k)) as [->|Hne]; [right; by left|].
    left. by rewrite store_error_lookup_ne in Hs.
Qed.

(** ** The three schemas of [porter/schema.py] *)

Lemma schemas_derive_BaseSchema (F : field_classes) (B : bob_classes) (s : Schema) :
  s = AliceGetUrsulas F ∨ s = AliceRevoke ∨ s = BobRetrieveCFrags B →
  derives_BaseSchema s ∧ NoDup (field_names s).
Proof.
  intros [->|[->| ->]].
  - split; [apply Alice_derives_BaseSchema|apply Alice_NoDup].
  - split; [|apply NoDup_nil_2]. split; [done|]. split; [done|constructor].
  - split; [apply Bob_derives_BaseSchema|apply Bob_NoDup].
Qed.

(** When [load] returns, the result has the keys of the input and no other:
    under the name of a field to load, what the field class decoded from the
    input value; under any other key (the name of an output field included),
    the input value as it came. *)
Theorem load_returns_the_input_decoded (F : field_classes) (B : bob_classes) (s : Schema)
    (raw : gmap string json) (data : gmap string value) :
  s = AliceGetUrsulas F ∨ s = AliceRevoke ∨ s = BobRetrieveCFrags B →
  load s raw = Return data →
  dom data = dom raw ∧
  (∀ name f j, (name, f) ∈ load_fields s → raw !! name = Some j →
     ∃ v, _deserialize f j = Decoded v ∧ data !! name = Some v) ∧
  (∀ k, k ∉ field_names s → data !! k = VRaw <$> raw !! k).
Proof.
  intros Hs Hload.
  destruct (schemas_derive_BaseSchema F B s Hs) as [(Hu & _ & _) Hnd].
  destruct (Schema_deserialize_passed s raw data Hu Hnd (load_Return_inv _ _ _ Hload))
    as [Hf Hk].
  split; [|split; [|done]].
  - apply set_eq. intros k. rewrite !elem_of_dom.
    destruct (decide (k ∈ field_names s)) as [Hin|Hin].
    + apply list_elem_of_fmap in Hin as ([n f] & -> & Hin). simpl.
      destruct (Hf _ _ Hin) as [(-> & _ & ->)|(j & v & -> & _ & _ & ->)]; [done|].
      split; eauto.
    + rewrite (Hk k Hin). by rewrite fmap_is_Some.
  - intros name f j Hin Hraw.
    destruct (Hf _ _ Hin) as [(Hn & _)|(j' & v & Hj & _ & Hd & Hv)]; [congruence|].
    exists v. split; [congruence|done].
Qed.

Lemma load_returns_the_input_decoded_witness :
  (dom ({[ "quantity" := VInt 2; "ursulas" := VRaw (JList []);
           "include_ursulas" := VList [Samples.A] ]} : gmap string value) : gset string) =
  dom ({[ "quantity" := JInt 2; "ursulas" := JList [];
          "include_ursulas" := JList [JStr Samples.A] ]} : gmap string json).
Proof.
  refine (proj1 (load_returns_the_input_decoded Samples.classes (Samples.bob false)
    (AliceGetUrsulas Samples.classes) _ _ (or_introl eq_refl) _)).
  vm_compute. reflexivity.
Defined.

(** [AliceRevoke] declares nothing: [load] accepts every payload and returns
    it untouched. *)
Theorem AliceRevoke_accepts_every_payload (raw : gmap string json) :
  load AliceRevoke raw = Return (VRaw <$> raw).
Proof.
  unfold load, Schema_deserialize. simpl.
  assert (unknown_part AliceRevoke raw = raw) as ->.
  { unfold unknown_part. apply map_filter_id. intros k j _. simpl. apply not_elem_of_nil. }
  by rewrite (right_id_L ∅ (∪)).
Qed.

(** A field to load that the input sets to null is never accepted, optional
    or not: [load] returns no result, and when no field lets an exception
    through it raises the collected errors with [Field may not be null.]
    under that field. *)
Theorem null_is_not_accepted (F : field_classes) (B : bob_classes) (s : Schema)
    (raw : gmap string json) (name : string) (f : Field) :
  s = AliceGetUrsulas F ∨ s = AliceRevoke ∨ s = BobRetrieveCFrags B →
  (name, f) ∈ load_fields s →
  raw !! name = Some JNull →
  (∀ data, load s raw ≠ Return data) ∧
  ((∀ n' f' e, (n', f') ∈ load_fields s → deserialize f' (raw !! n') ≠ Raised e) →
   ∃ errors : gmap string (list string),
     errors !! name = Some [null_msg] ∧
     load s raw = Raise (InvalidInputData (Errors (MDict errors)))).
Proof.
  intros Hs Hin Hraw.
  destruct (schemas_derive_BaseSchema F B s Hs) as [Hbase Hnd].
  pose proof Hbase as (Hu & _ & _).
  split.
  - intros data Hload.
    destruct (Schema_deserialize_passed s raw data Hu Hnd (load_Return_inv _ _ _ Hload))
      as [Hf _].
    destruct (Hf _ _ Hin) as [(Hn & _)|(j & v & Hj & Hnull & _)]; congruence.
  - intros Hok.
    destruct (deserialize_fields_errors (load_fields s) raw ∅ ∅ Hnd)
      as (ret & errors & Hd & Hspec); [by intros; apply lookup_empty|done|].
    assert (He : errors !! name = Some [null_msg]).
    { apply Hspec. right. exists f. split; [done|]. by rewrite Hraw. }
    exists errors. split; [done|].
    apply (load_field_errors s raw ((VRaw <$> unknown_part s raw) ∪ ret) errors Hbase).
    + unfold Schema_deserialize. rewrite Hd. simpl. by rewrite Hu.
    + intros Heq. by rewrite Heq in He.
Qed.

Lemma null_is_not_accepted_witness :
  ∃ errors : gmap string (list string),
    errors !! "include_ursulas" = Some [null_msg] ∧
    load (AliceGetUrsulas Samples.classes)
         {[ "quantity" := JInt 2; "include_ursulas" := JNull ]} =
    Raise (InvalidInputData (Errors (MDict errors))).
Proof.
  refine (proj2 (null_is_not_accepted Samples.classes (Samples.bob false)
    (AliceGetUrsulas Samples.classes) _ "include_ursulas"
    (field (include_ursulas Samples.classes)) (or_introl eq_refl) _ _) _).
  - rewrite Alice_load_fields. do 2 apply list_elem_of_further. apply list_elem_of_here.
  - vm_compute. reflexivity.
  - intros n' f' e Hin. rewrite Alice_load_fields in Hin.
    repeat (apply elem_of_cons in Hin as [Heq|Hin];
            [simplify_eq; vm_compute; discriminate|]).
    by apply elem_of_nil in Hin.
Defined.

(** ** What [load] of [AliceGetUrsulas] raises *)

(** The rules on a loaded result: they raise their own error or nothing. *)
Lemma rules_on_loaded (F : field_classes) (raw : gmap string json) (data : gmap string value) :
  Schema_deserialize (AliceGetUrsulas F) raw = Return (data, ∅) →
  ∃ q incl excl,
    data !! "quantity" = Some (VInt q) ∧
    get_or_empty data "include_ursulas" = Return incl ∧
    get_or_empty data "exclude_ursulas" = Return excl ∧
    check_include_and_exclude_are_mutually_exclusive data =
      (if bool_decide (0 < size (list_to_set incl ∩ list_to_set excl : gset string))
       then Raise (InvalidArgumentCombo (exclusive_msg (list_to_set incl ∩ list_to_set excl)))
       else Return ()) ∧
    check_valid_quantity_and_include_ursulas data =
      (if bool_decide (incl ≠ []) && (q <? Z.of_nat (length incl))%Z
       then Raise (InvalidArgumentCombo quantity_msg)
       else Return ()).
Proof.
  intros H.
  destruct (deserialize_quantity_present F raw data H) as [q Hq].
  destruct (get_or_empty_typed F raw data ∅ "include_ursulas" H) as [incl Hi]; [by right|].
  destruct (get_or_empty_typed F raw data ∅ "exclude_ursulas" H) as [excl He]; [by left|].
  exists q, incl, excl. repeat split; try done.
  - by apply check_include_and_exclude_loaded.
  - rewrite (check_valid_quantity_get_or_empty data incl Hi), Hq. simpl.
    by destruct (bool_decide (incl ≠ [])).
Qed.

(** A field lets an exception through only from its [_deserialize], on a
    value of the input that is not null. *)
Lemma deserialize_Raised (f : Field) (raw : option json) (e : exn) :
  deserialize f raw = Raised e →
  ∃ j, raw = Some j ∧ j ≠ JNull ∧ _deserialize f j = Raised e.
Proof.
  unfold deserialize. destruct raw as [j|]; [|by destruct (required f)].
  intros H. exists j. split; [done|].
  destruct j; try done; (split; [done|]);
    destruct (_deserialize f _) as [v|msgs|e']; simpl in H; by simplify_eq.
Qed.

(** Every exception that [load] of [AliceGetUrsulas] raises is one of four:
    the exception that the [_deserialize] of one of the three fields raised
    on the value the input has for it; [InvalidInputData] around a non-empty
    store whose keys are names of the three fields to load; the error of the
    quantity rule; the error of the include/exclude rule, with a non-empty
    set.  The schema adds no other: a [KeyError] or a [TypeError] comes from
    a field class and not from a rule, and when the field classes raise
    nothing but [InvalidInputData] on the values of the input (beside the
    [ValidationError] that [load] records), [load] raises nothing but
    [InvalidInputData] and [InvalidArgumentCombo], so that marshmallow's own
    [ValidationError] does not reach the caller. *)
Theorem AliceGetUrsulas_load_raises (F : field_classes) (raw : gmap string json) (e : exn) :
  load (AliceGetUrsulas F) raw = Raise e →
  ((∃ name f j, (name, f) ∈ load_fields (AliceGetUrsulas F) ∧
                raw !! name = Some j ∧ _deserialize f j = Raised e) ∨
   (∃ errors : gmap string (list string),
      errors ≠ ∅ ∧
      (∀ k, is_Some (errors !! k) → k ∈ ["quantity"; "exclude_ursulas"; "include_ursulas"]) ∧
      e = InvalidInputData (Errors (MDict errors))) ∨
   e = InvalidArgumentCombo quantity_msg ∨
   (∃ S : gset string, S ≠ ∅ ∧ e = InvalidArgumentCombo (exclusive_msg S))) ∧
  ((∀ name f j e', (name, f) ∈ load_fields (AliceGetUrsulas F) →
                   raw !! name = Some j → _deserialize f j = Raised e' →
                   ∃ arg, e' = InvalidInputData arg) →
   (∃ arg, e = InvalidInputData arg) ∨ (∃ msg, e = InvalidArgumentCombo msg)).
Proof.
  intros Hload.
  assert (Hcases :
    (∃ name f j, (name, f) ∈ load_fields (AliceGetUrsulas F) ∧
                 raw !! name = Some j ∧ _deserialize f j = Raised e) ∨
    (∃ errors : gmap string (list string),
       errors ≠ ∅ ∧
       (∀ k, is_Some (errors !! k) → k ∈ ["quantity"; "exclude_ursulas"; "include_ursulas"]) ∧
       e = InvalidInputData (Errors (MDict errors))) ∨
    e = InvalidArgumentCombo quantity_msg ∨
    (∃ S : gset string, S ≠ ∅ ∧ e = InvalidArgumentCombo (exclusive_msg S))).
  { destruct (Schema_deserialize (AliceGetUrsulas F) raw) as [[data errors]|e0] eqn:H.
    - destruct (decide (errors = ∅)) as [->|Hne].
      + rewrite (Alice_load_passed F raw data H) in Hload.
        destruct (rules_on_loaded F raw data H) as (q & incl & excl & _ & _ & _ & Hx & Hv).
        rewrite Hx, Hv in Hload.
        destruct (bool_decide (0 < size _)) eqn:Hs; simpl in Hload.
        * injection Hload as <-. right. right. right.
          eexists. split; [|done]. intros Heq.
          apply bool_decide_eq_true in Hs. rewrite Heq, size_empty in Hs. lia.
        * destruct (_ && _); [|done]. injection Hload as <-. by right; right; left.
      + rewrite (load_field_errors _ _ _ _ (Alice_derives_BaseSchema F) H Hne) in Hload.
        injection Hload as <-. right. left. exists errors. split; [done|]. split; [|done].
        intros k Hk. destruct (Alice_deserialize_inv F raw data errors H) as (ret_d & Hd & _).
        destruct (deserialize_fields_errors_dom _ _ _ _ _ _ k Hd Hk) as [Hs|Hin].
        * rewrite lookup_empty in Hs. by destruct Hs.
        * done.
    - left. unfold load in Hload. rewrite H in Hload. injection Hload as <-.
      unfold Schema_deserialize in H.
      destruct (deserialize_fields _ raw ∅ ∅) as [[ret_d errors]|e1] eqn:Hd; simpl in H.
      + done.
      + injection H as <-.
        destruct (deserialize_fields_Raise _ _ _ _ _ Hd) as (name & f & Hin & Hf).
        destruct (deserialize_Raised _ _ _ Hf) as (j & Hj & _ & Hr).
        by exists name, f, j. }
  split; [done|]. intros Hclasses.
  destruct Hcases as [(name & f & j & Hin & Hj & Hr)|[(errors & _ & _ & ->)|[->|(S & _ & ->)]]];
    eauto.
Qed.

Lemma AliceGetUrsulas_load_raises_witness :
  ((∃ name f j, (name, f) ∈ load_fields (AliceGetUrsulas Samples.classes) ∧
                Samples.request 1 [Samples.A; Samples.B] None !! name = Some j ∧
                _deserialize f j = Raised (InvalidArgumentCombo quantity_msg)) ∨
   (∃ errors : gmap string (list string),
      errors ≠ ∅ ∧
      (∀ k, is_Some (errors !! k) → k ∈ ["quantity"; "exclude_ursulas"; "include_ursulas"]) ∧
      InvalidArgumentCombo quantity_msg = InvalidInputData (Errors (MDict errors))) ∨
   InvalidArgumentCombo quantity_msg = InvalidArgumentCombo quantity_msg ∨
   (∃ S : gset string, S ≠ ∅ ∧
      InvalidArgumentCombo quantity_msg = InvalidArgumentCombo (exclusive_msg S))) ∧
  ((∃ arg, InvalidArgumentCombo quantity_msg = InvalidInputData arg) ∨
   (∃ msg, InvalidArgumentCombo quantity_msg = InvalidArgumentCombo msg)).
Proof.
  destruct (AliceGetUrsulas_load_raises Samples.classes
              (Samples.request 1 [Samples.A; Samples.B] None)
              (InvalidArgumentCombo quantity_msg)) as [H1 H2].
  - vm_compute. reflexivity.
  - split; [exact H1|]. apply H2.
    intros name f j e' Hin Hj Hr. rewrite Alice_load_fields in Hin.
    repeat (apply elem_of_cons in Hin as [Heq|Hin];
            [simplify_eq; vm_compute in Hj; simplify_eq; vm_compute in Hr; discriminate|]).
    by apply elem_of_nil in Hin.
Defined.

(** ** Smaller requests *)

(** The two rules for lists with entries removed and the same quantity. *)
Lemma rules_accept_smaller_requests_aux (data data' : gmap string value) (q : Z)
    (incl incl' excl excl' : list string) :
  data !! "quantity" = Some (VInt q) →
  data' !! "quantity" = Some (VInt q) →
  get_or_empty data "include_ursulas" = Return incl →
  get_or_empty data' "include_ursulas" = Return incl' →
  get_or_empty data "exclude_ursulas" = Return excl →
  get_or_empty data' "exclude_ursulas" = Return excl' →
  incl' `sublist_of` incl → excl' `sublist_of` excl →
  check_valid_quantity_and_include_ursulas data = Return () →
  check_include_and_exclude_are_mutually_exclusive data = Return () →
  check_valid_quantity_and_include_ursulas data' = Return () ∧
  check_include_and_exclude_are_mutually_exclusive data' = Return ().
Proof.
  intros Hq Hq' Hi Hi' He He' Hsi Hse.
  rewrite (check_valid_quantity_get_or_empty data incl Hi), Hq.
  rewrite (check_valid_quantity_get_or_empty data' incl' Hi'), Hq'.
  rewrite (check_include_and_exclude_loaded data incl excl Hi He).
  rewrite (check_include_and_exclude_loaded data' incl' excl' Hi' He').
  simpl. intros Hv Hx. split.
  - destruct (bool_decide (incl' ≠ [])) eqn:Hn'; [|done].
    apply bool_decide_eq_true in Hn'.
    assert (incl ≠ []) as Hn.
    { intros ->. by apply sublist_nil_r in Hsi. }
    rewrite (bool_decide_eq_true_2 _ Hn) in Hv.
    apply sublist_length in Hsi.
    destruct (Z.ltb_spec q (Z.of_nat (length incl))); [done|].
    destruct (Z.ltb_spec q (Z.of_nat (length incl'))); [lia|done].
  - destruct (bool_decide (0 < size (list_to_set incl' ∩ list_to_set excl' : gset string)))
      eqn:Hs; [|done].
    apply bool_decide_eq_true in Hs.
    apply common_ursulas_nonempty in Hs as (a & Ha & Ha').
    rewrite bool_decide_eq_true_2 in Hx; [done|].
    apply common_ursulas_nonempty. exists a.
    split; [exact (elem_of_sublist _ _ _ Ha Hsi)|exact (elem_of_sublist _ _ _ Ha' Hse)].
Qed.

(** A result on which both rules pass still passes them with a quantity that
    is not smaller and with entries removed from either list. *)
Theorem rules_accept_smaller_requests (data data' : gmap string value) (q q' : Z)
    (incl incl' excl excl' : list string) :
  data !! "quantity" = Some (VInt q) →
  data' !! "quantity" = Some (VInt q') →
  get_or_empty data "include_ursulas" = Return incl →
  get_or_empty data' "include_ursulas" = Return incl' →
  get_or_empty data "exclude_ursulas" = Return excl →
  get_or_empty data' "exclude_ursulas" = Return excl' →
  (q ≤ q')%Z → incl' `sublist_of` incl → excl' `sublist_of` excl →
  check_valid_quantity_and_include_ursulas data = Return () →
  check_include_and_exclude_are_mutually_exclusive data = Return () →
  check_valid_quantity_and_include_ursulas data' = Return () ∧
  check_include_and_exclude_are_mutually_exclusive data' = Return ().
Proof.
  intros Hq Hq' Hi Hi' He He' Hle Hsi Hse.
  rewrite (check_valid_quantity_get_or_empty data incl Hi), Hq.
  rewrite (check_valid_quantity_get_or_empty data' incl' Hi'), Hq'.
  rewrite (check_include_and_exclude_loaded data incl excl Hi He).
  rewrite (check_include_and_exclude_loaded data' incl' excl' Hi' He').
  simpl. intros Hv Hx. split.
  - destruct (bool_decide (incl' ≠ [])) eqn:Hn'; [|done].
    apply bool_decide_eq_true in Hn'.
    assert (incl ≠ []) as Hn.
    { intros ->. by apply sublist_nil_r in Hsi. }
    rewrite (bool_decide_eq_true_2 _ Hn) in Hv.
    apply sublist_length in Hsi.
    destruct (Z.ltb_spec q (Z.of_nat (length incl))); [done|].
    destruct (Z.ltb_spec q' (Z.of_nat (length incl'))); [lia|done].
  - destruct (bool_decide (0 < size (list_to_set incl' ∩ list_to_set excl' : gset string)))
      eqn:Hs; [|done].
    apply bool_decide_eq_true in Hs.
    apply common_ursulas_nonempty in Hs as (a & Ha & Ha').
    rewrite bool_decide_eq_true_2 in Hx; [done|].
    apply common_ursulas_nonempty. exists a.
    split; [exact (elem_of_sublist _ _ _ Ha Hsi)|exact (elem_of_sublist _ _ _ Ha' Hse)].
Qed.

Lemma rules_accept_smaller_requests_witness :
  check_valid_quantity_and_include_ursulas
    {[ "quantity" := VInt 3; "include_ursulas" := VList [Samples.A];
       "exclude_ursulas" := VList [Samples.C] ]} = Return () ∧
  check_include_and_exclude_are_mutually_exclusive
    {[ "quantity" := VInt 3; "include_ursulas" := VList [Samples.A];
       "exclude_ursulas" := VList [Samples.C] ]} = Return ().
Proof.
  refine (rules_accept_smaller_requests
    {[ "quantity" := VInt 2; "include_ursulas" := VList [Samples.A; Samples.B];
       "exclude_ursulas" := VList [Samples.C; Samples.D] ]}
    _ 2 3 [Samples.A; Samples.B] [Samples.A] [Samples.C; Samples.D] [Samples.C]
    _ _ _ _ _ _ _ _ _ _ _).
  - vm_compute. reflexivity.
  - vm_compute. reflexivity.
  - vm_compute. reflexivity.
  - vm_compute. reflexivity.
  - vm_compute. reflexivity.
  - vm_compute. reflexivity.
  - lia.
  - apply sublist_skip, sublist_cons, sublist_nil.
  - apply sublist_skip, sublist_cons, sublist_nil.
  - vm_compute. reflexivity.
  - vm_compute. reflexivity.
Defined.

(** ** What a loaded [AliceGetUrsulas] request guarantees *)

(** When [load] returns, the input had a [quantity] that the field class
    decoded, each list in the result is what the field class decoded from the
    list of the input (an absent list reads as empty), a non-empty include
    list is not longer than the quantity, and no address is in both lists. *)
Theorem AliceGetUrsulas_load_guarantees (F : field_classes) (raw : gmap string json)
    (data : gmap string value) :
  load (AliceGetUrsulas F) raw = Return data →
  ∃ (jq : json) (q : Z) (incl excl : list string),
    raw !! "quantity" = Some jq ∧ PositiveInteger F jq = Decoded q ∧
    data !! "quantity" = Some (VInt q) ∧
    get_or_empty data "include_ursulas" = Return incl ∧
    get_or_empty data "exclude_ursulas" = Return excl ∧
    ((raw !! "include_ursulas" = None ∧ incl = []) ∨
     ∃ j, raw !! "include_ursulas" = Some j ∧
          StringList_UrsulaChecksumAddress F j = Decoded incl) ∧
    ((raw !! "exclude_ursulas" = None ∧ excl = []) ∨
     ∃ j, raw !! "exclude_ursulas" = Some j ∧
          StringList_UrsulaChecksumAddress F j = Decoded excl) ∧
    (incl ≠ [] → (Z.of_nat (length incl) ≤ q)%Z) ∧
    (∀ a, a ∈ incl → a ∉ excl).
Proof.
  intros Hload. pose proof (load_Return_inv _ _ _ Hload) as H.
  destruct (Schema_deserialize_passed (AliceGetUrsulas F) raw data eq_refl (Alice_NoDup F) H)
    as [Hf _].
  rewrite (Alice_load_passed F raw data H) in Hload.
  destruct (rules_on_loaded F raw data H) as (q & incl & excl & Hq & Hi & He & Hx & Hv).
  rewrite Hx, Hv in Hload.
  destruct (bool_decide (0 < size _)) eqn:Hs; simpl in Hload; [done|].
  destruct (bool_decide (incl ≠ []) && _) eqn:Hb; [done|].
  apply bool_decide_eq_false in Hs.
  destruct (Hf _ _ (Alice_in_quantity F)) as [(_ & [=] & _)|(jq & v & Hjq & _ & Hd & Hv')].
  simpl in Hd. destruct (PositiveInteger F jq) as [q0| |] eqn:Hp; simpl in Hd; [|done..].
  injection Hd as <-. rewrite Hq in Hv'. injection Hv' as ->.
  exists jq, q0, incl, excl. repeat split; try done.
  - destruct (Hf _ _ (Alice_in_include F)) as [(Hn & _ & Hdn)|(j & v & Hj & _ & Hd & Hdv)].
    + left. split; [done|]. unfold get_or_empty in Hi. rewrite Hdn in Hi. congruence.
    + right. exists j. split; [done|]. simpl in Hd.
      destruct (StringList_UrsulaChecksumAddress F j) as [l| |]; simpl in Hd; [|done..].
      injection Hd as <-. unfold get_or_empty in Hi. rewrite Hdv in Hi. simpl in Hi.
      congruence.
  - destruct (Hf _ _ (Alice_in_exclude F)) as [(Hn & _ & Hdn)|(j & v & Hj & _ & Hd & Hdv)].
    + left. split; [done|]. unfold get_or_empty in He. rewrite Hdn in He. congruence.
    + right. exists j. split; [done|]. simpl in Hd.
      destruct (StringList_UrsulaChecksumAddress F j) as [l| |]; simpl in Hd; [|done..].
      injection Hd as <-. unfold get_or_empty in He. rewrite Hdv in He. simpl in He.
      congruence.
  - intros Hn. rewrite (bool_decide_eq_true_2 _ Hn) in Hb. simpl in Hb.
    apply Z.ltb_ge in Hb. lia.
  - intros a Ha Ha'. apply Hs, common_ursulas_nonempty. eauto.
Qed.

Lemma AliceGetUrsulas_load_guarantees_witness :
  ∃ (jq : json) (q : Z) (incl excl : list string),
    Samples.request 2 [Samples.A; Samples.B] (Some [Samples.C]) !! "quantity" = Some jq ∧
    Samples.PositiveInteger jq = Decoded q ∧ (0 < q)%Z ∧
    (incl ≠ [] → (Z.of_nat (length incl) ≤ q)%Z) ∧ (∀ a, a ∈ incl → a ∉ excl).
Proof.
  destruct (AliceGetUrsulas_load_guarantees Samples.classes
    (Samples.request 2 [Samples.A; Samples.B] (Some [Samples.C]))
    {[ "quantity" := VInt 2;
       "include_ursulas" := VList [Samples.A; Samples.B];
       "exclude_ursulas" := VList [Samples.C] ]})
    as (jq & q & incl & excl & Hjq & Hp & _ & _ & _ & _ & _ & Hlen & Hdis).
  - vm_compute. reflexivity.
  - exists jq, q, incl, excl. repeat split; try done.
    vm_compute in Hjq. injection Hjq as <-. vm_compute in Hp. injection Hp as <-. lia.
Defined.

(** ** Dropping an optional filter *)

(** When every field decodes, the loop ends and leaves the store as it was. *)
Lemma deserialize_fields_all_Decoded fs raw ret_d errors :
  (∀ name f, (name, f) ∈ fs → ∃ o, deserialize f (raw !! name) = Decoded o) →
  ∃ ret_d', deserialize_fields fs raw ret_d errors = Return (ret_d', errors).
Proof.
  revert ret_d. induction fs as [|[n f] fs IH]; intros ret_d Hall; simpl; [eauto|].
  destruct (Hall n f) as [o ->]; [by left|].
  destruct o; apply IH; intros name f0 Hin; apply Hall; by right.
Qed.

(** With [unknown = INCLUDE]: a pass without errors stays one when a field
    that is not required is taken out of the input, and its result is the old
    one less that key. *)
Lemma Schema_deserialize_delete_optional (s : Schema) (raw : gmap string json)
    (data : gmap string value) (key : string) (fk : Field) :
  unknown s = INCLUDE → NoDup (field_names s) →
  (key, fk) ∈ load_fields s → required fk = false →
  Schema_deserialize s raw = Return (data, ∅) →
  Schema_deserialize s (delete key raw) = Return (delete key data, ∅).
Proof.
  intros Hu Hnd Hkey Hreq H.
  destruct (Schema_deserialize_passed s raw data Hu Hnd H) as [Hf Hk].
  assert (∃ ret_d, deserialize_fields (load_fields s) raw ∅ ∅ = Return (ret_d, ∅))
    as [ret_d Hd].
  { unfold Schema_deserialize in H.
    destruct (deserialize_fields _ raw ∅ ∅) as [[ret_d errors]|]; simpl in H; [|done].
    rewrite Hu in H. injection H as _ ->. eauto. }
  assert (Hfk : ∀ f, (key, f) ∈ load_fields s → f = fk).
  { intros f Hin. by apply (NoDup_fst_functional (load_fields s) key). }
  destruct (deserialize_fields_all_Decoded (load_fields s) (delete key raw) ∅ ∅)
    as [ret_d' Hd'].
  { intros name f Hin. destruct (decide (name = key)) as [->|Hne].
    - rewrite lookup_delete_eq, (Hfk f Hin). exists None. simpl. by rewrite Hreq.
    - rewrite lookup_delete_ne by done.
      destruct (deserialize_fields_passed _ _ _ _ Hd name f Hin)
        as [[-> Hr]|(j & v & _ & _ & _ & ->)]; [|eauto].
      exists None. simpl. by rewrite Hr. }
  assert (H' : Schema_deserialize s (delete key raw) =
               Return ((VRaw <$> unknown_part s (delete key raw)) ∪ ret_d', ∅)).
  { unfold Schema_deserialize. rewrite Hd'. simpl. by rewrite Hu. }
  rewrite H'. f_equal. f_equal.
  destruct (Schema_deserialize_passed s _ _ Hu Hnd H') as [Hf' Hk'].
  assert (Hin_key : key ∈ field_names s).
  { apply list_elem_of_fmap. by exists (key, fk). }
  apply map_eq. intros k.
  destruct (decide (k ∈ field_names s)) as [Hin|Hin].
  - apply list_elem_of_fmap in Hin as ([n f] & -> & Hin). simpl.
    destruct (decide (n = key)) as [->|Hne].
    + rewrite lookup_delete_eq.
      destruct (Hf' _ _ Hin) as [(_ & _ & ->)|(j & v & Hj & _)]; [done|].
      by rewrite lookup_delete_eq in Hj.
    + rewrite (lookup_delete_ne data) by done.
      destruct (Hf' _ _ Hin) as [(Hn & _ & ->)|(j & v & Hj & _ & Hv & ->)];
        rewrite lookup_delete_ne in * by done;
        destruct (Hf _ _ Hin) as [(Hn0 & _ & ->)|(j0 & v0 & Hj0 & _ & Hv0 & ->)];
        congruence.
  - rewrite (Hk' k Hin).
    assert (k ≠ key) by (by intros ->).
    rewrite !lookup_delete_ne by done. by rewrite (Hk k Hin).
Qed.

(** An accepted request is still accepted without its exclude list, or
    without its include list, and loads to the same result less that key. *)
Theorem optional_filter_can_be_dropped (F : field_classes) (raw : gmap string json)
    (data : gmap string value) (key : string) :
  key = "exclude_ursulas" ∨ key = "include_ursulas" →
  load (AliceGetUrsulas F) raw = Return data →
  load (AliceGetUrsulas F) (delete key raw) = Return (delete key data).
Proof.
  intros Hkey Hload. pose proof (load_Return_inv _ _ _ Hload) as H.
  assert (H' : Schema_deserialize (AliceGetUrsulas F) (delete key raw) =
               Return (delete key data, ∅)).
  { destruct Hkey as [-> | ->].
    - by apply (Schema_deserialize_delete_optional _ _ _ _ (field (exclude_ursulas F)));
        [|apply Alice_NoDup|apply Alice_in_exclude| |].
    - by apply (Schema_deserialize_delete_optional _ _ _ _ (field (include_ursulas F)));
        [|apply Alice_NoDup|apply Alice_in_include| |]. }
  (* the rules pass on the smaller result *)
  rewrite (Alice_load_passed F raw data H) in Hload.
  destruct (rules_on_loaded F raw data H) as (q & incl & excl & Hq & Hi & He & _ & _).
  destruct (check_include_and_exclude_are_mutually_exclusive data) as [[]|] eqn:Hx; [|done].
  destruct (check_valid_quantity_and_include_ursulas data) as [[]|] eqn:Hv; [|done].
  rewrite (Alice_load_passed F _ _ H').
  assert (Hq' : delete key data !! "quantity" = Some (VInt q)).
  { destruct Hkey as [-> | ->]; by rewrite lookup_delete_ne. }
  destruct Hkey as [-> | ->].
  - destruct (rules_accept_smaller_requests_aux data (delete "exclude_ursulas" data)
      q incl incl excl []) as [-> ->]; try done.
    + unfold get_or_empty in *. by rewrite lookup_delete_ne.
    + unfold get_or_empty. by rewrite lookup_delete_eq.
    + apply sublist_nil_l.
  - destruct (rules_accept_smaller_requests_aux data (delete "include_ursulas" data)
      q incl [] excl excl) as [-> ->]; try done.
    + unfold get_or_empty. by rewrite lookup_delete_eq.
    + unfold get_or_empty in *. by rewrite lookup_delete_ne.
    + apply sublist_nil_l.
Qed.

Lemma optional_filter_can_be_dropped_witness :
  load (AliceGetUrsulas Samples.classes)
       (delete "include_ursulas" (Samples.request 2 [Samples.A; Samples.B] (Some [Samples.C]))) =
  Return (delete "include_ursulas"
            {[ "quantity" := VInt 2;
               "include_ursulas" := VList [Samples.A; Samples.B];
               "exclude_ursulas" := VList [Samples.C] ]}).
Proof.
  refine (optional_filter_can_be_dropped Samples.classes _ _ "include_ursulas"
            (or_intror eq_refl) _).
  vm_compute. reflexivity.
Defined.

(** ** What a loaded [BobRetrieveCFrags] request guarantees *)

(** When [load] returns, the input had all five required fields, and the
    result holds under [treasure_map] the object that
    [TreasureMapClass.from_bytes] made of the bytes that the base64 step gave
    for the input value, whichever way [InvalidInputData] is declared. *)
Theorem BobRetrieveCFrags_load_guarantees (B : bob_classes) (raw : gmap string json)
    (data : gmap string value) :
  load (BobRetrieveCFrags B) raw = Return data →
  (∀ name, name ∈ ["treasure_map"; "retrieval_kits"; "alice_verifying_key";
                   "bob_encrypting_key"; "bob_verifying_key"] →
           is_Some (raw !! name) ∧ is_Some (data !! name)) ∧
  ∃ j b t,
    raw !! "treasure_map" = Some j ∧
    Base64BytesRepresentation_deserialize B j = Return b ∧
    TreasureMapClass_from_bytes B b = Return t ∧
    data !! "treasure_map" = Some (VObj t).
Proof.
  intros Hload. pose proof (load_Return_inv _ _ _ Hload) as H.
  destruct (Schema_deserialize_passed (BobRetrieveCFrags B) raw data eq_refl (Bob_NoDup B) H)
    as [Hf _].
  split.
  - intros name Hin.
    assert (∃ f, (name, f) ∈ load_fields (BobRetrieveCFrags B) ∧ required f = true)
      as (f & Hm & Hreq).
    { rewrite Bob_load_fields.
      repeat (apply elem_of_cons in Hin as [->|Hin]); [..|by apply elem_of_nil in Hin];
        eexists;
        (split; [repeat first [apply list_elem_of_here | apply list_elem_of_further]
                |reflexivity]). }
    destruct (Hf _ _ Hm) as [(_ & Hr & _)|(j & v & -> & _ & _ & ->)]; [congruence|eauto].
  - destruct (Hf "treasure_map" (field (treasure_map B)))
      as [(_ & [=] & _)|(j & v & Hj & _ & Hd & Hv)];
      [rewrite Bob_load_fields; apply list_elem_of_here|].
    simpl in Hd. unfold TreasureMap._deserialize in Hd.
    destruct (Base64BytesRepresentation_deserialize B j) as [b|e] eqn:Hb; simpl in Hd.
    + destruct (TreasureMapClass_from_bytes B b) as [t|e] eqn:Ht; simpl in Hd.
      * injection Hd as <-. by exists j, b, t.
      * by destruct (InvalidInputData_isa_ValidationError B).
    + by destruct (InvalidInputData_isa_ValidationError B).
Qed.

Lemma BobRetrieveCFrags_load_guarantees_witness :
  ∃ j b t,
    Samples.retrieval !! "treasure_map" = Some j ∧
    Samples.b64decode j = Return b ∧
    Samples.from_bytes "TreasureMap" b = Return t.
Proof.
  destruct (BobRetrieveCFrags_load_guarantees (Samples.bob false)
    Samples.retrieval Samples.retrieval_loaded)
    as (_ & j & b & t & Hj & Hb & Ht & _).
  - vm_compute. reflexivity.
  - by exists j, b, t.
Defined.



(** ** [BobRetrieveCFrags] has no rule *)

Lemma Bob_load_deserialized (B : bob_classes) (raw : gmap string json)
    (data : gmap string value) (errors : gmap string (list string)) :
  Schema_deserialize (BobRetrieveCFrags B) raw = Return (data, errors) →
  load (BobRetrieveCFrags B) raw =
    if bool_decide (errors ≠ ∅)
    then Raise (InvalidInputData (Errors (MDict errors)))
    else Return data.
Proof. intros H. unfold load. rewrite H. simpl. by case_bool_decide. Qed.

(** What the treasure map field lets through: the [InvalidInputData] of
    [TreasureMap._deserialize], and only when that class is no
    [ValidationError]. *)
Lemma treasure_map_Raised (B : bob_classes) (j : json) (e : exn) :
  _deserialize (field (treasure_map B)) j = Raised e →
  InvalidInputData_isa_ValidationError B = false ∧
  (∃ msg, e = InvalidInputData (Text msg)) ∧
  TreasureMap._deserialize "treasure_map" (str B) (Base64BytesRepresentation_deserialize B)
    (TreasureMapClass_from_bytes B) j = Raise e.
Proof.
  simpl. unfold TreasureMap._deserialize.
  destruct (_ ← _; _) as [t|e0]; simpl; [done|].
  destruct (InvalidInputData_isa_ValidationError B); [done|].
  intros [= <-]. eauto.
Qed.

(** Every exception that [load] of [BobRetrieveCFrags] raises is one of
    three: the [InvalidInputData] that [TreasureMap._deserialize] raised on
    the treasure map of the input (when that class is no [ValidationError]);
    the exception that the [_deserialize] of one of the five other fields
    raised on the value the input has for it; [InvalidInputData] around a
    non-empty store whose keys are names of the six fields to load.  The
    schema has no rule and adds nothing: when those five field classes raise
    nothing but [InvalidInputData] on the values of the input, so does
    [load], which then raises no [InvalidArgumentCombo] and no
    [ValidationError]. *)
Theorem BobRetrieveCFrags_load_raises (B : bob_classes) (raw : gmap string json) (e : exn) :
  load (BobRetrieveCFrags B) raw = Raise e →
  ((∃ j, raw !! "treasure_map" = Some j ∧
         InvalidInputData_isa_ValidationError B = false ∧
         TreasureMap._deserialize "treasure_map" (str B)
           (Base64BytesRepresentation_deserialize B) (TreasureMapClass_from_bytes B) j =
           Raise e) ∨
   (∃ name f j, (name, f) ∈ load_fields (BobRetrieveCFrags B) ∧ name ≠ "treasure_map" ∧
                raw !! name = Some j ∧ _deserialize f j = Raised e) ∨
   (∃ errors : gmap string (list string),
      errors ≠ ∅ ∧
      (∀ k, is_Some (errors !! k) →
            k ∈ ["treasure_map"; "retrieval_kits"; "alice_verifying_key";
                 "bob_encrypting_key"; "bob_verifying_key"; "context"]) ∧
      e = InvalidInputData (Errors (MDict errors)))) ∧
  ((∀ name f j e', (name, f) ∈ load_fields (BobRetrieveCFrags B) → name ≠ "treasure_map" →
                   raw !! name = Some j → _deserialize f j = Raised e' →
                   ∃ arg, e' = InvalidInputData arg) →
   ∃ arg, e = InvalidInputData arg).
Proof.
  intros Hload.
  assert (Hcases :
    (∃ j, raw !! "treasure_map" = Some j ∧
          InvalidInputData_isa_ValidationError B = false ∧
          (∃ msg, e = InvalidInputData (Text msg)) ∧
          TreasureMap._deserialize "treasure_map" (str B)
            (Base64BytesRepresentation_deserialize B) (TreasureMapClass_from_bytes B) j =
            Raise e) ∨
    (∃ name f j, (name, f) ∈ load_fields (BobRetrieveCFrags B) ∧ name ≠ "treasure_map" ∧
                 raw !! name = Some j ∧ _deserialize f j = Raised e) ∨
    (∃ errors : gmap string (list string),
       errors ≠ ∅ ∧
       (∀ k, is_Some (errors !! k) →
             k ∈ ["treasure_map"; "retrieval_kits"; "alice_verifying_key";
                  "bob_encrypting_key"; "bob_verifying_key"; "context"]) ∧
       e = InvalidInputData (Errors (MDict errors)))).
  { destruct (Schema_deserialize (BobRetrieveCFrags B) raw) as [[data errors]|e0] eqn:H.
    - rewrite (Bob_load_deserialized B raw data errors H) in Hload.
      destruct (bool_decide (errors ≠ ∅)) eqn:Hne; [|done].
      apply bool_decide_eq_true in Hne. injection Hload as <-.
      right. right. exists errors. split; [done|]. split; [|done].
      intros k Hk. unfold Schema_deserialize in H.
      destruct (deserialize_fields _ raw ∅ ∅) as [[ret_d errors0]|] eqn:Hd; simpl in H; [|done].
      injection H as _ ->.
      destruct (deserialize_fields_errors_dom _ _ _ _ _ _ k Hd Hk) as [Hs|Hin].
      + rewrite lookup_empty in Hs. by destruct Hs.
      + by rewrite Bob_load_fields in Hin.
    - unfold load in Hload. rewrite H in Hload. injection Hload as <-.
      unfold Schema_deserialize in H.
      destruct (deserialize_fields _ raw ∅ ∅) as [[ret_d errors]|e1] eqn:Hd; simpl in H; [done|].
      injection H as <-.
      destruct (deserialize_fields_Raise _ _ _ _ _ Hd) as (name & f & Hin & Hf).
      destruct (deserialize_Raised _ _ _ Hf) as (j & Hj & _ & Hr).
      destruct (decide (name = "treasure_map")) as [->|Hne].
      + left. exists j. split; [done|].
        assert (f = field (treasure_map B)) as ->.
        { apply (NoDup_fst_functional _ _ _ _ (Bob_NoDup B) Hin).
          rewrite Bob_load_fields. apply list_elem_of_here. }
        by apply treasure_map_Raised.
      + right. left. by exists name, f, j. }
  split.
  - destruct Hcases as [(j & Hj & Hisa & _ & Hr)|[H|H]]; [left; by exists j|by right; left|
                                                          by right; right].
  - intros Hclasses.
    destruct Hcases as [(j & _ & _ & (msg & ->) & _)|[(name & f & j & Hin & Hne & Hj & Hr)|
                                                      (errors & _ & _ & ->)]]; eauto.
Qed.

Lemma BobRetrieveCFrags_load_raises_witness :
  ∃ arg,
    load (BobRetrieveCFrags (Samples.bob false))
         (<["bob_verifying_key" := JStr "02ab"]> Samples.retrieval) =
    Raise (InvalidInputData arg).
Proof.
  destruct (BobRetrieveCFrags_load_raises (Samples.bob false)
    (<["bob_verifying_key" := JStr "02ab"]> Samples.retrieval)
    (InvalidInputData (Text
       "Could not convert input to an Umbral Key: Failed to deserialize a PublicKey object")))
    as [_ (arg & Harg)].
  - vm_compute. reflexivity.
  - intros name f j e' Hin Hne Hj Hr. rewrite Bob_load_fields in Hin.
    repeat (apply elem_of_cons in Hin as [Heq|Hin];
            [simplify_eq; try done; vm_compute in Hj; simplify_eq;
             vm_compute in Hr; simplify_eq; eauto|]).
    by apply elem_of_nil in Hin.
  - exists arg. rewrite <- Harg. vm_compute. reflexivity.
Defined.

(** An accepted request is still accepted without its [context], and loads to
    the same result less that key. *)
Theorem context_can_be_dropped (B : bob_classes) (raw : gmap string json)
    (data : gmap string value) :
  load (BobRetrieveCFrags B) raw = Return data →
  load (BobRetrieveCFrags B) (delete "context" raw) = Return (delete "context" data).
Proof.
  intros Hload. pose proof (load_Return_inv _ _ _ Hload) as H.
  rewrite (Bob_load_deserialized B (delete "context" raw) (delete "context" data) ∅).
  - by rewrite bool_decide_eq_false_2 by (by intros []).
  - apply (Schema_deserialize_delete_optional _ _ _ _ (field (context B)));
      [done|apply Bob_NoDup| |done|done].
    rewrite Bob_load_fields. do 5 apply list_elem_of_further. apply list_elem_of_here.
Qed.

Lemma context_can_be_dropped_witness :
  load (BobRetrieveCFrags (Samples.bob false))
    (delete "context" (<["context" := JDict []]> Samples.retrieval)) =
  Return (delete "context" (<["context" := VRaw (JDict [])]> Samples.retrieval_loaded)).
Proof.
  refine (context_can_be_dropped (Samples.bob false) _ _ _).
  vm_compute. reflexivity.
Defined.

(** ** The click options beside the fields *)

(** In both schemas every field to load carries a click option and the output
    field carries none; the option is required exactly when the field is, a
    repeatable option has the empty list for default and a single one has no
    default, and no flag is declared twice in a schema. *)
Theorem click_options_mirror_the_fields (F : field_classes) (B : bob_classes)
    (decls : list (string * declaration)) :
  decls = AliceGetUrsulas_declarations F ∨ decls = BobRetrieveCFrags_declarations B →
  (∀ name d, (name, d) ∈ decls →
     match click d with
     | None => dump_only (field d) = true
     | Some o =>
         dump_only (field d) = false ∧ load_only (field d) = true ∧
         Click.required o = Marshmallow.required (field d) ∧
         Click.default o = (if Click.multiple o then Some (JList []) else None)
     end) ∧
  NoDup (concat (omap (λ nd, Click.flags <$> click nd.2) decls)).
Proof.
  intros [-> | ->]; (split; [|by apply (bool_decide_unpack _)]); intros name d Hin;
    repeat (apply elem_of_cons in Hin as [Heq|Hin]; [by simplify_eq|]);
    by apply elem_of_nil in Hin.
Qed.

Lemma click_options_mirror_the_fields_witness :
  NoDup (concat (omap (λ nd : string * declaration, Click.flags <$> click nd.2)
                      (BobRetrieveCFrags_declarations (Samples.bob false)))).
Proof.
  refine (proj2 (click_options_mirror_the_fields Samples.classes (Samples.bob false) _
                   (or_intror eq_refl))).
Defined.

(** ** The include/exclude rule read both ways *)

(** The include/exclude rule does not tell the two lists apart: with the
    lists exchanged it raises the same error, naming the same set, or passes
    as before. *)
Theorem include_exclude_rule_is_symmetric (data data' : gmap string value)
    (incl excl : list string) :
  get_or_empty data "include_ursulas" = Return incl →
  get_or_empty data "exclude_ursulas" = Return excl →
  get_or_empty data' "include_ursulas" = Return excl →
  get_or_empty data' "exclude_ursulas" = Return incl →
  check_include_and_exclude_are_mutually_exclusive data' =
    check_include_and_exclude_are_mutually_exclusive data.
Proof.
  intros Hi He Hi' He'.
  rewrite (check_include_and_exclude_loaded data incl excl Hi He).
  rewrite (check_include_and_exclude_loaded data' excl incl Hi' He').
  by rewrite (comm_L (∩) (list_to_set excl)).
Qed.

Lemma include_exclude_rule_is_symmetric_witness :
  check_include_and_exclude_are_mutually_exclusive
    {[ "include_ursulas" := VList [Samples.B; Samples.C];
       "exclude_ursulas" := VList [Samples.A; Samples.B] ]} =
  check_include_and_exclude_are_mutually_exclusive
    {[ "include_ursulas" := VList [Samples.A; Samples.B];
       "exclude_ursulas" := VList [Samples.B; Samples.C] ]}.
Proof.
  refine (include_exclude_rule_is_symmetric _ _ [Samples.A; Samples.B] [Samples.B; Samples.C]
            _ _ _ _); vm_compute; reflexivity.
Defined.
